(** * Orion flow-run orchestration: a shallow embedding

    Embedded sources:
    - [src/prefect/orion/models/flow_runs.py]
      ([create_flow_run], [update_flow_run], [read_flow_run],
      [delete_flow_run], [set_flow_run_state]);
    - [src/prefect/orion/schemas/data.py]
      ([create_datadoc], [get_datadoc_subclass], [DataDocument.create],
      [DataDocument.read], [FileSystemDataDocument]);
    - [src/prefect/tasks/great_expectations/checkpoints.py]
      ([RunGreatExpectationsValidation.run]).

    Python code is rendered in a state-and-exception monad: a statement
    that raises keeps every mutation made before the raise, exactly as a
    Python exception does. *)

From Stdlib Require Import List ZArith NArith String Bool Lia.
Import ListNotations.

Set Implicit Arguments.

(** ** Python effects *)

Module Py.

Definition UUID : Type := N.

(** The exceptions the embedded functions raise themselves, plus a
    generic constructor for whatever a collaborator may raise. *)
Inductive PyExc : Type :=
| ValueError_invalid_flow_run (flow_run_id : UUID)
| ValueError_expected_FlowRunUpdate (got : string)
| ValueError_unknown_encoding (encoding : option string)
| ValueError_unsupported_encoding (cls : string) (encoding : option string)
| AttributeError (attr : string)
| IntegrityError
| NotImplementedError
| OtherError (name : string).

Inductive Outcome (A : Type) : Type :=
| Ok (a : A)
| Raise (e : PyExc).
Arguments Raise {A} e.

Definition M (S A : Type) : Type := S -> Outcome A * S.

Definition ret {S A} (a : A) : M S A := fun s => (Ok a, s).

Definition bind {S A B} (m : M S A) (k : A -> M S B) : M S B :=
  fun s =>
    match m s with
    | (Ok a, s') => k a s'
    | (Raise e, s') => (Raise e, s')
    end.

Definition raise {S A} (e : PyExc) : M S A := fun s => (Raise e, s).

Definition gets {S A} (f : S -> A) : M S A := fun s => (Ok (f s), s).

Definition modify {S} (f : S -> S) : M S unit := fun s => (Ok tt, f s).

(** [for x in xs: body(x)] *)
Fixpoint for_each {S A} (xs : list A) (body : A -> M S unit) : M S unit :=
  match xs with
  | [] => ret tt
  | x :: xs' => bind (body x) (fun _ => for_each xs' body)
  end.

Definition is_ok {A} (o : Outcome A) : bool :=
  match o with Ok _ => true | Raise _ => false end.

Definition raised {A} (o : Outcome A) : option PyExc :=
  match o with Ok _ => None | Raise e => Some e end.

(** Python truthiness of an optional string: [None] and the empty
    string are falsy. *)
Definition truthy_str (s : option string) : bool :=
  match s with
  | Some EmptyString => false
  | Some (String _ _) => true
  | None => false
  end.

(** Python truthiness of an optional object without [__bool__] or
    [__len__]: only [None] is falsy. *)
Definition truthy_obj {A} (o : option A) : bool :=
  match o with Some _ => true | None => false end.

End Py.

Import Py.

Declare Scope py_scope.
Delimit Scope py_scope with py.
Notation "x <- c1 ;; c2" := (bind c1 (fun x => c2))
  (at level 61, c1 at next level, right associativity) : py_scope.
Notation "c1 ;; c2" := (bind c1 (fun _ => c2))
  (at level 61, right associativity) : py_scope.

Local Open Scope py_scope.

(** ** Data model of [models/flow_runs.py] *)

Definition DateTime : Type := Z.

(** Modelled from the spec: the state-type enumeration of
    [schemas/states.py], which is not among the sources (spec section 3). *)
Inductive StateType : Type :=
| SCHEDULED | PENDING | RUNNING | COMPLETED | FAILED | CANCELLED | CRASHED.

(** Modelled from the spec: [schemas.states.State] ([schemas/states.py] is
    not among the sources), with the fields of spec section 3: identity,
    type, timestamp, optional message. *)
Record State : Type := mkState {
  state_id : UUID;
  state_type : StateType;
  state_timestamp : DateTime;
  state_message : option string }.

(** Modelled from the spec: [schemas.core.FlowRun], the argument of
    [create_flow_run] ([schemas/core.py] is not among the sources), with
    the fields of a run in spec section 3 that [create_flow_run] reads.
    The [id] is always populated (by its default factory), [fr_id_set]
    records whether the caller supplied it, which is what
    [exclude_unset=True] of line 64 looks at; [fr_created] is [None] unless
    the caller supplied it.  The columns that play no part in creation
    (name, parameters, tags, ...) are left out, and a request refers to a
    state through [state] only. *)
Record FlowRun : Type := mkFlowRun {
  fr_id : UUID;
  fr_id_set : bool;
  fr_created : option DateTime;
  fr_flow_id : UUID;
  fr_idempotency_key : option string;
  fr_state : option State }.

(** Modelled from the spec: a row of the [flow_run] table
    ([db_config.FlowRun], whose declaration is not among the sources);
    [row_state_id] is the current-state pointer of spec section 3. *)
Record FlowRunRow : Type := mkFlowRunRow {
  row_id : UUID;
  row_created : DateTime;
  row_flow_id : UUID;
  row_idempotency_key : option string;
  row_state_id : option UUID }.

(** Modelled from the spec: a row of the [flow_run_state] table, a state
    linked to its run. *)
Record FlowRunStateRow : Type := mkFlowRunStateRow {
  srow_id : UUID;
  srow_flow_run_id : UUID;
  srow_type : StateType;
  srow_timestamp : DateTime;
  srow_message : option string }.

(** The database session together with the two sources of values the
    code reads from its environment: the wall clock ([pendulum.now] and
    the storage default of [created]) and the generator of storage-assigned
    identifiers.  Each is a sequence of readings with a cursor. *)
Record Session : Type := mkSession {
  flow_run_table : list FlowRunRow;
  flow_run_state_table : list FlowRunStateRow;
  clock : nat -> DateTime;
  clock_reads : nat;
  uuid4 : nat -> UUID;
  uuid4_draws : nat }.

Definition set_flow_run_table (t : list FlowRunRow) (s : Session) : Session :=
  mkSession t (flow_run_state_table s)
            (clock s) (clock_reads s) (uuid4 s) (uuid4_draws s).

Definition set_flow_run_state_table (t : list FlowRunStateRow) (s : Session)
  : Session :=
  mkSession (flow_run_table s) t
            (clock s) (clock_reads s) (uuid4 s) (uuid4_draws s).

(** [pendulum.now("UTC")], also the storage default of [created]. *)
Definition read_clock : M Session DateTime :=
  fun s =>
    (Ok (clock s (clock_reads s)),
     mkSession (flow_run_table s) (flow_run_state_table s)
               (clock s) (S (clock_reads s)) (uuid4 s) (uuid4_draws s)).

(** The storage default of [id]. *)
Definition draw_uuid4 : M Session UUID :=
  fun s =>
    (Ok (uuid4 s (uuid4_draws s)),
     mkSession (flow_run_table s) (flow_run_state_table s)
               (clock s) (clock_reads s) (uuid4 s) (S (uuid4_draws s))).

(** SQL equality on a nullable column: [NULL] equals nothing. *)
Definition sql_eq_key (a b : option string) : bool :=
  match a, b with
  | Some x, Some y => String.eqb x y
  | _, _ => false
  end.

Definition same_unique_keys (flow_id : UUID) (key : option string)
  (r : FlowRunRow) : bool :=
  N.eqb (row_flow_id r) flow_id && sql_eq_key (row_idempotency_key r) key.

Definition has_id (id : UUID) (r : FlowRunRow) : bool := N.eqb (row_id r) id.

(** Modelled from the spec: the storage layer's constraints on [flow_run]
    (the table declarations of [db_config] are not among the sources): the
    primary key [id], and the uniqueness constraint on
    (flow identity, idempotency key) of spec section 3. *)
Definition violates_primary_key (r : FlowRunRow) (t : list FlowRunRow) : bool :=
  existsb (has_id (row_id r)) t.

Definition conflicts_on_unique_keys (r : FlowRunRow) (t : list FlowRunRow)
  : bool :=
  existsb (same_unique_keys (row_flow_id r) (row_idempotency_key r)) t.

(** The primary key holds in a session. *)
Definition unique_ids (s : Session) : Prop :=
  NoDup (map row_id (flow_run_table s)).

(** Fills the columns the statement leaves out with the storage defaults. *)
Definition with_defaults (id : option UUID) (created : option DateTime)
  (flow_id : UUID) (key : option string) : M Session FlowRunRow :=
  id' <- match id with Some i => ret i | None => draw_uuid4 end ;;
  created' <- match created with Some c => ret c | None => read_clock end ;;
  ret (mkFlowRunRow id' created' flow_id key None).

(** A plain [INSERT]: any constraint violation is an [IntegrityError]. *)
Definition insert_row (id : option UUID) (created : option DateTime)
  (flow_id : UUID) (key : option string) : M Session FlowRunRow :=
  r <- with_defaults id created flow_id key ;;
  t <- gets flow_run_table ;;
  if violates_primary_key r t || conflicts_on_unique_keys r t
  then raise IntegrityError
  else modify (set_flow_run_table (t ++ [r])) ;; ret r.

(** [INSERT ... ON CONFLICT (flow_id, idempotency_key) DO NOTHING]: a
    conflict on the named columns is swallowed, any other violation is
    still an [IntegrityError]. *)
Definition insert_on_conflict_do_nothing (id : option UUID)
  (created : option DateTime) (flow_id : UUID) (key : option string)
  : M Session unit :=
  t <- gets flow_run_table ;;
  if existsb (same_unique_keys flow_id key) t
  then ret tt
  else
    r <- with_defaults id created flow_id key ;;
    if violates_primary_key r t
    then raise IntegrityError
    else modify (set_flow_run_table (t ++ [r])).

(** [SELECT ... WHERE flow_id = ? AND idempotency_key = ? LIMIT 1] *)
Definition select_by_unique_keys (flow_id : UUID) (key : option string)
  : M Session (option FlowRunRow) :=
  gets (fun s => find (same_unique_keys flow_id key) (flow_run_table s)).

(** [session.get(db_config.FlowRun, flow_run_id)] *)
Definition session_get (flow_run_id : UUID) : M Session (option FlowRunRow) :=
  gets (fun s => find (has_id flow_run_id) (flow_run_table s)).

(** [run.state.as_state() if run.state else None]: follows the
    current-state pointer into the state table. *)
Definition as_state (r : FlowRunStateRow) : State :=
  mkState (srow_id r) (srow_type r) (srow_timestamp r) (srow_message r).

Definition run_state (s : Session) (run : FlowRunRow) : option State :=
  match row_state_id run with
  | None => None
  | Some sid =>
      option_map as_state
        (find (fun r => N.eqb (srow_id r) sid) (flow_run_state_table s))
  end.

(** ** Collaborators of [models/flow_runs.py]

    [orchestration/rules.py], [orchestration/core_policy.py],
    [orchestration/global_policy.py] and [schemas/actions.py] are not among
    the sources.  [set_flow_run_state] and [update_flow_run] use them only
    through the interface below, so they are taken as parameters. *)

(** Modelled from the spec: the response status of spec section 3. *)
Inductive SetStateStatus : Type := ACCEPT | REJECT | ABORT | WAIT.

(** Modelled from the spec: the fields of the orchestration context
    (spec section 3).  The constructor call in [set_flow_run_state] gives
    [run], [initial_state] and [proposed_state]; the other fields start
    unset.  One context object is shared by every rule of a chain (spec
    section 9), so a single record is threaded through the chain. *)
Record FlowOrchestrationContext : Type := mkContext {
  ctx_run : FlowRunRow;
  ctx_initial_state : option State;
  ctx_proposed_state : option State;
  ctx_validated_state : option State;
  ctx_response_status : option SetStateStatus;
  ctx_response_details : option string }.

(** [OrchestrationResult], with the three fields lines 382-386 give it. *)
Record OrchestrationResult : Type := mkResult {
  result_state : option State;
  result_status : option SetStateStatus;
  result_details : option string }.

(** A hook of the orchestration layer runs on the shared context and the
    session. *)
Definition Hook (A : Type) : Type := M (FlowOrchestrationContext * Session) A.

(** The context managers [set_flow_run_state] builds from the rule classes
    a policy returns: [rule(context, *intended_transition)] for a Core rule,
    [rule(context)] for a Global rule. *)
Inductive RuleInstance (Rule : Type) : Type :=
| CoreRule (rule : Rule) (from_type to_type : option StateType)
| GlobalRule (rule : Rule).
Arguments GlobalRule {Rule} rule.

Record Policy (Rule : Type) : Type := mkPolicy {
  compile_transition_rules :
    option StateType -> option StateType -> list Rule }.

Class Collaborators : Type := mkCollaborators {
  Rule : Type;
  GlobalFlowPolicy : Policy Rule;
  CoreFlowPolicy : Policy Rule;
  (** [__aenter__] of a rule instance; the context it returns is the
      shared one *)
  aenter : RuleInstance Rule -> Hook unit;
  (** [__aexit__] of a rule instance, given the pending exception; a true
      result suppresses it *)
  aexit : RuleInstance Rule -> option PyExc -> Hook bool;
  (** [FlowOrchestrationContext.validate_proposed_state] *)
  validate_proposed_state : Hook unit;
  (** [schemas.actions.FlowRunUpdate] and the [SET] clause built from
      [flow_run.dict(shallow=True, exclude_unset=True)] *)
  FlowRunUpdate : Type;
  update_values : FlowRunUpdate -> FlowRunRow -> FlowRunRow }.

(** ** Observation of a run

    The functions are instrumented with a chronological trace: every
    storage round trip, every call of [set_flow_run_state], and every step
    of a rule chain appends one event.  Hooks have no access to it. *)

Inductive Statement : Type :=
| InsertOnConflictDoNothing
| SelectByUniqueKeys
| UpdateById.

Inductive Event (Rule : Type) : Type :=
| SessionGet (flow_run_id : UUID)
| SessionAddFlush
| SessionExecute (stmt : Statement)
| SessionFlush
| EngineCall (flow_run_id : UUID) (state : option State) (force : bool)
| RuleEnter (r : RuleInstance Rule)
| Validate
| RuleExit (r : RuleInstance Rule).
Arguments SessionGet {Rule} flow_run_id.
Arguments SessionAddFlush {Rule}.
Arguments SessionExecute {Rule} stmt.
Arguments SessionFlush {Rule}.
Arguments EngineCall {Rule} flow_run_id state force.
Arguments Validate {Rule}.

Record St (Rule : Type) : Type := mkSt {
  session : Session;
  trace : list (Event Rule) }.

Definition emit {Rule} (e : Event Rule) : M (St Rule) unit :=
  modify (fun st => mkSt (session st) (trace st ++ [e])).

Definition on_session {Rule A} (m : M Session A) : M (St Rule) A :=
  fun st =>
    let '(r, s') := m (session st) in (r, mkSt s' (trace st)).

(** ** The rule chain of [set_flow_run_state]

    The body of the [async with contextlib.AsyncExitStack() as stack] block
    runs on the local variable [context], the stack's callbacks (last
    registered first) and the instrumented session. *)
Record Chain (Rule : Type) : Type := mkChain {
  chain_context : FlowOrchestrationContext;
  chain_stack : list (RuleInstance Rule);
  chain_st : St Rule }.

Definition chain_trace {Rule} (c : Chain Rule) : list (Event Rule) :=
  trace (chain_st c).

Definition on_st {Rule A} (m : M (St Rule) A) : M (Chain Rule) A :=
  fun c =>
    let '(r, st') := m (chain_st c) in
    (r, mkChain (chain_context c) (chain_stack c) st').

Definition run_hook {Rule A} (h : Hook A) : M (Chain Rule) A :=
  fun c =>
    let '(r, (ctx', s')) := h (chain_context c, session (chain_st c)) in
    (r, mkChain ctx' (chain_stack c) (mkSt s' (trace (chain_st c)))).

Definition push_exit {Rule} (r : RuleInstance Rule) : M (Chain Rule) unit :=
  modify (fun c => mkChain (chain_context c) (r :: chain_stack c) (chain_st c)).

(** [context = await stack.enter_async_context(cm)]: [cm.__aenter__] runs
    first; its [__aexit__] is registered only when it returned. *)
Definition enter_async_context {C : Collaborators} (cm : RuleInstance Rule)
  : M (Chain Rule) unit :=
  on_st (emit (RuleEnter cm)) ;;
  run_hook (aenter cm) ;;
  push_exit cm.

(** [AsyncExitStack.__aexit__]: the callbacks run last registered first,
    each with the exception pending at that point; a callback that returns
    true clears it, a callback that raises replaces it. *)
Fixpoint unwind {C : Collaborators} (callbacks : list (RuleInstance Rule))
  (pending : option PyExc) (c : Chain Rule) : option PyExc * Chain Rule :=
  match callbacks with
  | [] => (pending, c)
  | cb :: rest =>
      match (on_st (emit (RuleExit cb)) ;; run_hook (aexit cb pending)) c with
      | (Ok true, c') => unwind rest None c'
      | (Ok false, c') => unwind rest pending c'
      | (Raise e, c') => unwind rest (Some e) c'
      end
  end.

(** The two [for] loops of lines 370-376. *)
Definition entry_phase {C : Collaborators}
  (orchestration_rules global_rules : list Rule)
  (from_type to_type : option StateType) : M (Chain Rule) unit :=
  for_each orchestration_rules
    (fun rule => enter_async_context (CoreRule rule from_type to_type)) ;;
  for_each global_rules
    (fun rule => enter_async_context (GlobalRule rule)).

(** The body of the [async with] block (lines 370-378). *)
Definition chain_body {C : Collaborators}
  (orchestration_rules global_rules : list Rule)
  (from_type to_type : option StateType) : M (Chain Rule) unit :=
  entry_phase orchestration_rules global_rules from_type to_type ;;
  on_st (emit Validate) ;;
  run_hook validate_proposed_state.

(** The whole [async with] statement: body, then the stack's [__aexit__];
    an exception still pending afterwards propagates, otherwise control
    continues after the block with the shared context. *)
Definition async_with_exit_stack {C : Collaborators}
  (context : FlowOrchestrationContext) (body : M (Chain Rule) unit)
  : M (St Rule) FlowOrchestrationContext :=
  fun st =>
    let '(r, c1) := body (mkChain context [] st) in
    let '(pending, c2) :=
      unwind (chain_stack c1) (raised r)
             (mkChain (chain_context c1) [] (chain_st c1)) in
    match pending with
    | Some e => (Raise e, chain_st c2)
    | None => (Ok (chain_context c2), chain_st c2)
    end.

(** ** [models/flow_runs.py] *)

(** [read_flow_run] (lines 130-146) *)
Definition read_flow_run {Rule} (flow_run_id : UUID)
  : M (St Rule) (option FlowRunRow) :=
  emit (SessionGet flow_run_id) ;;
  on_session (session_get flow_run_id).

(** [intended_transition] of lines 347-350. *)
Definition intended_transition (initial_state state : option State)
  : option StateType * option StateType :=
  let initial_state_type := option_map state_type initial_state in
  let proposed_state_type := option_map state_type state in
  (initial_state_type, proposed_state_type).

(** The rule lists of lines 352-359. *)
Definition compiled_rules {C : Collaborators} (force : bool)
  (intended_transition : option StateType * option StateType)
  : list Rule * list Rule :=
  let '(from_type, to_type) := intended_transition in
  let global_rules :=
    compile_transition_rules GlobalFlowPolicy from_type to_type in
  let orchestration_rules :=
    if force then []
    else compile_transition_rules CoreFlowPolicy from_type to_type in
  (orchestration_rules, global_rules).

(** The context of lines 361-366. *)
Definition new_context (run : FlowRunRow) (initial_state state : option State)
  : FlowOrchestrationContext :=
  mkContext run initial_state state None None None.

(** [set_flow_run_state] (lines 310-388) *)
Definition set_flow_run_state {C : Collaborators} (flow_run_id : UUID)
  (state : option State) (force : bool) : M (St Rule) OrchestrationResult :=
  emit (EngineCall flow_run_id state force) ;;
  run <- read_flow_run flow_run_id ;;
  match run with
  | None => raise (ValueError_invalid_flow_run flow_run_id)
  | Some run =>
      initial_state <- on_session (gets (fun s => run_state s run)) ;;
      let transition := intended_transition initial_state state in
      let '(orchestration_rules, global_rules) :=
        compiled_rules force transition in
      let context := new_context run initial_state state in
      context <- async_with_exit_stack context
                   (chain_body orchestration_rules global_rules
                               (fst transition) (snd transition)) ;;
      emit SessionFlush ;;
      ret (mkResult (ctx_validated_state context)
                    (ctx_response_status context)
                    (ctx_response_details context))
  end.

(** The state in which the rule chain of an invocation starts: the call
    and the load of the run are on record, the session is as it was. *)
Definition engine_started {Rule} (st : St Rule) (flow_run_id : UUID)
  (state : option State) (force : bool) : St Rule :=
  mkSt (session st)
       (trace st ++ [EngineCall flow_run_id state force; SessionGet flow_run_id]).

(** The rule instances of an invocation, in the order the two loops enter
    them. *)
Definition core_instances {Rule} (rules : list Rule)
  (transition : option StateType * option StateType)
  : list (RuleInstance Rule) :=
  map (fun rule => CoreRule rule (fst transition) (snd transition)) rules.

Definition global_instances {Rule} (rules : list Rule)
  : list (RuleInstance Rule) :=
  map (@GlobalRule Rule) rules.

(** Lines 45-57 of [create_flow_run]: the ORM object is built from every
    field of [flow_run] but the state, added and flushed. *)
Definition add_and_flush {Rule} (flow_run : FlowRun)
  : M (St Rule) FlowRunRow :=
  emit SessionAddFlush ;;
  on_session (insert_row (Some (fr_id flow_run)) (fr_created flow_run)
                         (fr_flow_id flow_run) (fr_idempotency_key flow_run)).

(** Lines 61-70 of [create_flow_run]: the insert that ignores a conflict
    carries only the fields the caller set. *)
Definition insert_ignoring_conflict {Rule} (flow_run : FlowRun)
  : M (St Rule) unit :=
  emit (SessionExecute InsertOnConflictDoNothing) ;;
  on_session (insert_on_conflict_do_nothing
                (if fr_id_set flow_run then Some (fr_id flow_run) else None)
                (fr_created flow_run) (fr_flow_id flow_run)
                (fr_idempotency_key flow_run)).

(** Lines 71-83 of [create_flow_run]: [result.scalar()] is [None] when no
    row matches, and line 85 then fails on [model.created]. *)
Definition read_back {Rule} (flow_run : FlowRun) : M (St Rule) FlowRunRow :=
  emit (SessionExecute SelectByUniqueKeys) ;;
  result <- on_session (select_by_unique_keys (fr_flow_id flow_run)
                                              (fr_idempotency_key flow_run)) ;;
  match result with
  | Some model => ret model
  | None => raise (AttributeError "created")
  end.

Definition insert_then_read_back {Rule} (flow_run : FlowRun)
  : M (St Rule) FlowRunRow :=
  insert_ignoring_conflict flow_run ;;
  read_back flow_run.

(** The two statements a completed insert-then-read-back has executed. *)
Definition insert_and_select {Rule} : list (Event Rule) :=
  [SessionExecute InsertOnConflictDoNothing; SessionExecute SelectByUniqueKeys].

(** The guard of line 85. *)
Definition sets_initial_state (model : FlowRunRow) (now : DateTime)
  (flow_run : FlowRun) : bool :=
  (row_created model >=? now)%Z && truthy_obj (fr_state flow_run).

(** Lines 85-92 of [create_flow_run]. *)
Definition finish_create {C : Collaborators} (now : DateTime)
  (flow_run : FlowRun) (model : FlowRunRow) : M (St Rule) FlowRunRow :=
  if sets_initial_state model now flow_run then
    set_flow_run_state (row_id model) (fr_state flow_run) true ;;
    ret model
  else ret model.

(** [create_flow_run] (lines 25-92).  The ORM object [model] is the row as
    stored; through the session it stays tied to that row, whose state
    pointer the engine moves. *)
Definition create_flow_run {C : Collaborators} (flow_run : FlowRun)
  : M (St Rule) FlowRunRow :=
  now <- on_session read_clock ;;
  model <-
    (if negb (truthy_str (fr_idempotency_key flow_run))
     then add_and_flush flow_run
     else insert_then_read_back flow_run) ;;
  finish_create now flow_run model.

(** The argument [update_flow_run] receives for [flow_run]: Python lets
    the caller pass a value of any type. *)
Inductive PyArg (T : Type) : Type :=
| OfType (v : T)
| OfOtherType (type_repr : string).
Arguments OfOtherType {T} type_repr.

(** [update_flow_run] (lines 96-126) *)
Definition update_flow_run {C : Collaborators} (flow_run_id : UUID)
  (flow_run : PyArg FlowRunUpdate) : M (St Rule) bool :=
  match flow_run with
  | OfOtherType type_repr =>
      raise (ValueError_expected_FlowRunUpdate type_repr)
  | OfType flow_run =>
      emit (SessionExecute UpdateById) ;;
      t <- on_session (gets flow_run_table) ;;
      on_session (modify (set_flow_run_table
        (map (fun r => if has_id flow_run_id r
                       then update_values flow_run r else r) t))) ;;
      ret (existsb (has_id flow_run_id) t)
  end.

(** The rule entries a trace records, in order. *)
Definition entries_of {Rule} (tr : list (Event Rule))
  : list (RuleInstance Rule) :=
  flat_map (fun e => match e with
                     | RuleEnter cm => [cm]
                     | _ => []
                     end) tr.

(** The reading [now] of line 42 in a given state, and the state after
    it. *)
Definition now_of {Rule} (st : St Rule) : DateTime :=
  clock (session st) (clock_reads (session st)).

Definition after_now {Rule} (st : St Rule) : St Rule :=
  snd (on_session read_clock st).

(** The calls of [set_flow_run_state] a trace records, in order. *)
Definition engine_calls {Rule} (tr : list (Event Rule))
  : list (UUID * option State * bool) :=
  flat_map (fun e => match e with
                     | EngineCall i s f => [(i, s, f)]
                     | _ => []
                     end) tr.

(** The reading of the spec (section 4.4) under which a request without
    an idempotency key has its initial state driven through the engine
    whatever else holds. *)
Definition initial_state_driven_unconditionally : Prop :=
  forall (C : Collaborators) (st : St Rule) (flow_run : FlowRun)
         (model : FlowRunRow) (st' : St Rule),
    truthy_str (fr_idempotency_key flow_run) = false ->
    fr_state flow_run <> None ->
    create_flow_run flow_run st = (Ok model, st') ->
    engine_calls (trace st') =
    engine_calls (trace st) ++ [(row_id model, fr_state flow_run, true)].

(** ** Interleaved calls of [create_flow_run]

    A call suspends only at its storage round trips (spec section 5), so
    two calls on one database interleave at these points: after the clock
    reading of line 42, after the insert, after the read-back.  The engine
    invocation of lines 86-91 is one unit of work. *)
Inductive Call : Type :=
| NotStarted
| Inserting (now : DateTime)
| Selecting (now : DateTime)
| Guarding (now : DateTime) (model : FlowRunRow)
| Returned (now : DateTime) (model : FlowRunRow) (assigned : bool)
| Faulted (e : PyExc).

Definition advance {S A} (m : M S A) (k : A -> Call) (st : S) : Call * S :=
  match m st with
  | (Ok a, st') => (k a, st')
  | (Raise e, st') => (Faulted e, st')
  end.

Definition call_step {C : Collaborators} (flow_run : FlowRun) (c : Call)
  (st : St Rule) : Call * St Rule :=
  match c with
  | NotStarted => advance (on_session read_clock) Inserting st
  | Inserting now =>
      if negb (truthy_str (fr_idempotency_key flow_run))
      then advance (add_and_flush flow_run) (Guarding now) st
      else advance (insert_ignoring_conflict flow_run)
                   (fun _ => Selecting now) st
  | Selecting now => advance (read_back flow_run) (Guarding now) st
  | Guarding now model =>
      advance (finish_create now flow_run model)
              (fun m => Returned now m (sets_initial_state model now flow_run))
              st
  | Returned _ _ _ | Faulted _ => (c, st)
  end.

(** A schedule names, step by step, which of the two calls runs next. *)
Fixpoint run_schedule {C : Collaborators} (first second : FlowRun)
  (schedule : list bool) (a b : Call) (st : St Rule)
  : Call * Call * St Rule :=
  match schedule with
  | [] => (a, b, st)
  | true :: rest =>
      let '(a', st') := call_step first a st in
      run_schedule first second rest a' b st'
  | false :: rest =>
      let '(b', st') := call_step second b st in
      run_schedule first second rest a b' st'
  end.

(** One call on its own: four steps take it from start to finish. *)
Definition run_alone {C : Collaborators} (flow_run : FlowRun) (st : St Rule)
  : Call * St Rule :=
  let '(c1, st1) := call_step flow_run NotStarted st in
  let '(c2, st2) := call_step flow_run c1 st1 in
  let '(c3, st3) := call_step flow_run c2 st2 in
  call_step flow_run c3 st3.

(** The columns of a run row that identify it; only the state pointer is
    left out. *)
Definition identity_of (r : FlowRunRow)
  : UUID * DateTime * UUID * option string :=
  (row_id r, row_created r, row_flow_id r, row_idempotency_key r).

(** A hook keeps a quantity [P] of the session when running it, from any
    context and session, leaves [P] as it was. *)
Definition keeps {X A} (P : Session -> X) (h : Hook A) : Prop :=
  forall ctx s, P (snd (snd (h (ctx, s)))) = P s.

Definition collaborators_keep {X} (P : Session -> X) (C : Collaborators)
  : Prop :=
  (forall cm, keeps P (aenter cm)) /\
  (forall cm pending, keeps P (aexit cm pending)) /\
  keeps P validate_proposed_state.

(** The identities of the run rows, in table order: what remains of the
    table when the state pointers are left out. *)
Definition run_identities (s : Session)
  : list (UUID * DateTime * UUID * option string) :=
  map identity_of (flow_run_table s).

(** The identities of the rows that carry a given flow and key. *)
Definition pair_identities (flow_id : UUID) (key : option string)
  (s : Session) : list (UUID * DateTime * UUID * option string) :=
  map identity_of (filter (same_unique_keys flow_id key) (flow_run_table s)).

(** What a call in progress knows must agree with the rows [K] that carry
    its flow and key: past the insert there is one such row; past the
    read-back it is the call's [model]; and a returned call has assigned
    the initial state exactly when the guard of line 85 held. *)
Definition call_consistent (flow_run : FlowRun) (c : Call)
  (K : list (UUID * DateTime * UUID * option string)) : Prop :=
  match c with
  | NotStarted | Inserting _ | Faulted _ => True
  | Selecting _ => exists k, K = [k]
  | Guarding _ model => K = [identity_of model]
  | Returned now model assigned =>
      K = [identity_of model] /\
      assigned = sets_initial_state model now flow_run
  end.

Definition monotone (clock : nat -> DateTime) : Prop :=
  forall n m, n <= m -> (clock n <= clock m)%Z.

(** The reading of the spec (sections 4.4 and 8) under which, of two
    interleaved requests with the same flow and key that both carry an
    initial state, exactly one assigns it. *)
Definition exactly_one_call_assigns : Prop :=
  forall (C : Collaborators) (st st' : St Rule) (first second : FlowRun)
         (schedule : list bool) now_a model_a a now_b model_b b,
    collaborators_keep run_identities C ->
    monotone (clock (session st)) ->
    flow_run_table (session st) = [] ->
    fr_flow_id first = fr_flow_id second ->
    fr_idempotency_key first = fr_idempotency_key second ->
    truthy_str (fr_idempotency_key first) = true ->
    fr_state first <> None ->
    fr_state second <> None ->
    run_schedule first second schedule NotStarted NotStarted st =
      (Returned now_a model_a a, Returned now_b model_b b, st') ->
    xorb a b = true.

(** The second request reads its clock, the first runs from start to
    finish, the second goes on. *)
Definition late_insert_schedule : list bool :=
  [false; true; true; true; true; false; false; false].

(** ** The terminal step and sample rules *)

Definition decided_otherwise (status : option SetStateStatus) : bool :=
  match status with
  | Some REJECT | Some ABORT | Some WAIT => true
  | Some ACCEPT | None => false
  end.

Definition advance_pointer (run_id state_id : UUID) (r : FlowRunRow)
  : FlowRunRow :=
  if has_id run_id r
  then mkFlowRunRow (row_id r) (row_created r) (row_flow_id r)
                    (row_idempotency_key r) (Some state_id)
  else r.

Definition state_row (run_id : UUID) (p : State) : FlowRunStateRow :=
  mkFlowRunStateRow (state_id p) run_id (state_type p) (state_timestamp p)
                    (state_message p).

(** Modelled from the spec: [FlowOrchestrationContext.validate_proposed_state]
    of [orchestration/rules.py], which is not among the sources.  Spec
    section 4.2: the terminal step persists the final proposed state as a
    new state row linked to the run, advances the run's current-state
    pointer to it, and sets the response status to ACCEPT unless an earlier
    rule already set a different one; by section 3 a rejected or aborted
    transition persists nothing. *)
Definition terminal_step : Hook unit :=
  fun '(ctx, s) =>
    let status :=
      match ctx_response_status ctx with
      | None => Some ACCEPT
      | Some status => Some status
      end in
    match ctx_proposed_state ctx with
    | Some p =>
        if decided_otherwise (ctx_response_status ctx)
        then (Ok tt, (ctx, s))
        else
          let run_id := row_id (ctx_run ctx) in
          let s1 :=
            set_flow_run_state_table
              (flow_run_state_table s ++ [state_row run_id p]) s in
          let s2 :=
            set_flow_run_table
              (map (advance_pointer run_id (state_id p)) (flow_run_table s1))
              s1 in
          (Ok tt,
           (mkContext (ctx_run ctx) (ctx_initial_state ctx)
                      (ctx_proposed_state ctx) (Some p) status
                      (ctx_response_details ctx), s2))
    | None =>
        (Ok tt,
         (mkContext (ctx_run ctx) (ctx_initial_state ctx) None None status
                    (ctx_response_details ctx), s))
    end.

(** Any collaborators, with the terminal step of the spec. *)
Definition with_terminal_step (C : Collaborators) : Collaborators :=
  mkCollaborators (@GlobalFlowPolicy C) (@CoreFlowPolicy C) (@aenter C)
                  (@aexit C) terminal_step (@update_values C).

(** Two representative rules: a Core rule that vetoes any transition out
    of a COMPLETED state by raising, and a Global rule that passes every
    transition and notes it on the way out. *)
Inductive SampleRule : Type := GuardCompleted | NoteTransition.

Definition sample_aenter (cm : RuleInstance SampleRule) : Hook unit :=
  fun '(ctx, s) =>
    match cm with
    | CoreRule GuardCompleted (Some COMPLETED) _ =>
        (Raise (OtherError "Abort"), (ctx, s))
    | _ => (Ok tt, (ctx, s))
    end.

Definition sample_aexit (cm : RuleInstance SampleRule)
  (pending : option PyExc) : Hook bool :=
  fun '(ctx, s) =>
    match cm with
    | GlobalRule NoteTransition =>
        (Ok false,
         (mkContext (ctx_run ctx) (ctx_initial_state ctx)
                    (ctx_proposed_state ctx) (ctx_validated_state ctx)
                    (ctx_response_status ctx) (Some "noted"%string), s))
    | _ => (Ok false, (ctx, s))
    end.

Definition sample_collaborators : Collaborators :=
  mkCollaborators
    (mkPolicy (fun _ _ => [NoteTransition]))
    (mkPolicy (fun _ _ => [GuardCompleted]))
    sample_aenter sample_aexit terminal_step
    (fun (_ : unit) (r : FlowRunRow) => r).

(** Collaborators whose policies match no transition. *)
Definition no_rules : Collaborators :=
  mkCollaborators
    (mkPolicy (fun _ _ => @nil SampleRule))
    (mkPolicy (fun _ _ => @nil SampleRule))
    sample_aenter sample_aexit terminal_step
    (fun (_ : unit) (r : FlowRunRow) => r).

Definition sample_clock (n : nat) : DateTime := (100 + Z.of_nat n)%Z.
Definition sample_uuid4 (n : nat) : UUID := (1000 + N.of_nat n)%N.

Definition empty_session : Session :=
  mkSession [] [] sample_clock 0 sample_uuid4 0.

Definition sample_scheduled : State := mkState 7%N SCHEDULED 50%Z None.

Definition sample_run : FlowRunRow := mkFlowRunRow 1%N 90%Z 9%N None None.

(** A creation request with an idempotency key and an initial state, one
    without a key, and one without a key whose creation timestamp the
    caller has set. *)
Definition keyed_request : FlowRun :=
  mkFlowRun 1%N false None 9%N (Some "k1"%string) (Some sample_scheduled).

Definition second_keyed_request : FlowRun :=
  mkFlowRun 2%N false None 9%N (Some "k1"%string) (Some sample_scheduled).

Definition plain_request : FlowRun :=
  mkFlowRun 3%N true None 9%N None (Some sample_scheduled).

Definition backdated_request : FlowRun :=
  mkFlowRun 3%N true (Some 5%Z) 9%N None (Some sample_scheduled).

Definition fresh : St SampleRule := mkSt empty_session [].

(** A session holding one run that has no state yet. *)
Definition one_run : St SampleRule :=
  mkSt (mkSession [sample_run] [] sample_clock 0 sample_uuid4 0) [].

(** ** [schemas/data.py] *)

Definition bytes : Type := list Byte.byte.

Section DataDocuments.

(** [D] is the type of the data documents carry; [W] is the world outside
    the interpreter that [encode] and [decode] act on (files, for
    [FileSystemDataDocument]). *)
Variables D W : Type.

(** What [DataDocument.create] and [DataDocument.read] use of a subclass:
    its name, the default and the [Literal] arguments of its [encoding]
    field, and its [encode] and [decode] static methods. *)
Record DocumentClass : Type := mkDocumentClass {
  cls_name : string;
  cls_default_encoding : option string;
  supported_encodings : list string;
  encode : D -> M W bytes;
  decode : bytes -> M W D }.

(** An instance: the two fields and the [_data_cache] slot, which is
    [None] while the attribute does not exist. *)
Record DataDocument : Type := mkDataDocument {
  encoding : string;
  blob : bytes;
  _data_cache : option D }.

(** Instances are mutable objects: they live in a heap and are handled by
    reference.  [decode_log] records every dispatch to a [decode]. *)
Record Interp : Type := mkInterp {
  heap : list DataDocument;
  world : W;
  decode_log : list (string * bytes) }.

Definition Ref : Type := nat.

Definition on_world {A} (m : M W A) : M Interp A :=
  fun i =>
    let '(r, w') := m (world i) in (r, mkInterp (heap i) w' (decode_log i)).

Definition alloc (inst : DataDocument) : M Interp Ref :=
  fun i => (Ok (List.length (heap i)),
            mkInterp (heap i ++ [inst]) (world i) (decode_log i)).

Definition deref (self : Ref) : M Interp DataDocument :=
  fun i =>
    match nth_error (heap i) self with
    | Some inst => (Ok inst, i)
    | None => (Raise (OtherError "ReferenceError"), i)
    end.

Fixpoint replace_nth {A} (n : nat) (x : A) (l : list A) : list A :=
  match l, n with
  | [], _ => []
  | _ :: l', O => x :: l'
  | y :: l', S n' => y :: replace_nth n' x l'
  end.

(** [_cache_data] (lines 96-99) *)
Definition _cache_data (self : Ref) (data : D) : M Interp unit :=
  inst <- deref self ;;
  modify (fun i =>
    mkInterp (replace_nth self
                (mkDataDocument (encoding inst) (blob inst) (Some data))
                (heap i))
             (world i) (decode_log i)).

(** A Python dict keeps the position of a key that is assigned again. *)
Fixpoint dict_set (k : list string) (v : DocumentClass)
  (d : list (list string * DocumentClass)) : list (list string * DocumentClass) :=
  match d with
  | [] => [(k, v)]
  | (k', v') :: d' =>
      if list_eq_dec string_dec k k' then (k', v) :: d'
      else (k', v') :: dict_set k v d'
  end.

Definition contains (encoding : string) (encodings : list string) : bool :=
  existsb (String.eqb encoding) encodings.

(** [get_datadoc_subclass] (lines 40-50), over the list
    [DataDocument.__subclasses__()]. *)
Definition get_datadoc_subclass {S} (subclasses : list DocumentClass)
  (encoding : string) : M S DocumentClass :=
  let encoding_to_cls :=
    fold_left (fun d subclass =>
                 dict_set (supported_encodings subclass) subclass d)
              subclasses [] in
  match find (fun item => contains encoding (fst item)) encoding_to_cls with
  | Some (_, cls) => ret cls
  | None => raise (ValueError_unknown_encoding (Some encoding))
  end.

Definition log_decode (cls : DocumentClass) (blob : bytes) : M Interp unit :=
  modify (fun i =>
    mkInterp (heap i) (world i) (decode_log i ++ [(cls_name cls, blob)])).

(** [DataDocument.create] (lines 71-85) *)
Definition create (cls : DocumentClass) (data : D) (encoding : option string)
  : M Interp Ref :=
  let encoding :=
    match encoding with
    | None => cls_default_encoding cls
    | Some e => Some e
    end in
  match encoding with
  | Some e =>
      if contains e (supported_encodings cls) then
        blob <- on_world (encode cls data) ;;
        inst <- alloc (mkDataDocument e blob None) ;;
        _cache_data inst data ;;
        ret inst
      else raise (ValueError_unsupported_encoding (cls_name cls) (Some e))
  | None => raise (ValueError_unsupported_encoding (cls_name cls) None)
  end.

(** [DataDocument.read] (lines 87-94) *)
Definition read (subclasses : list DocumentClass) (self : Ref)
  : M Interp D :=
  inst <- deref self ;;
  match _data_cache inst with
  | Some data => ret data
  | None =>
      cls <- get_datadoc_subclass subclasses (encoding inst) ;;
      log_decode cls (blob inst) ;;
      data <- on_world (decode cls (blob inst)) ;;
      _cache_data self data ;;
      ret data
  end.

(** [n] calls of [read] in a row, with their results. *)
Fixpoint read_repeatedly (subclasses : list DocumentClass) (self : Ref)
  (n : nat) : M Interp (list D) :=
  match n with
  | O => ret []
  | S n' =>
      data <- read subclasses self ;;
      rest <- read_repeatedly subclasses self n' ;;
      ret (data :: rest)
  end.

End DataDocuments.

(** [FileSystemDataDocument] (lines 124-160).  A Python [str] is held as
    its UTF-8 bytes; the file system behind [fsspec] is a table from paths
    to contents, the latest write first. *)
Definition FileSystem : Type := list (string * bytes).

Definition in_range (lo hi : N) (b : Byte.byte) : bool :=
  (lo <=? Byte.to_N b)%N && (Byte.to_N b <=? hi)%N.

Definition tail_byte : Byte.byte -> bool := in_range 128 191.

(** Well-formed UTF-8, as [bytes.decode()] demands. *)
Fixpoint utf8_valid (bs : bytes) : bool :=
  match bs with
  | [] => true
  | b0 :: r0 =>
      if in_range 0 127 b0 then utf8_valid r0 else
      match r0 with
      | [] => false
      | b1 :: r1 =>
          if in_range 194 223 b0 then tail_byte b1 && utf8_valid r1 else
          match r1 with
          | [] => false
          | b2 :: r2 =>
              if in_range 224 224 b0
              then in_range 160 191 b1 && tail_byte b2 && utf8_valid r2
              else if in_range 225 236 b0 || in_range 238 239 b0
              then tail_byte b1 && tail_byte b2 && utf8_valid r2
              else if in_range 237 237 b0
              then in_range 128 159 b1 && tail_byte b2 && utf8_valid r2
              else
              match r2 with
              | [] => false
              | b3 :: r3 =>
                  if in_range 240 240 b0
                  then in_range 144 191 b1 && tail_byte b2 && tail_byte b3
                       && utf8_valid r3
                  else if in_range 241 243 b0
                  then tail_byte b1 && tail_byte b2 && tail_byte b3
                       && utf8_valid r3
                  else if in_range 244 244 b0
                  then in_range 128 143 b1 && tail_byte b2 && tail_byte b3
                       && utf8_valid r3
                  else false
              end
          end
      end
  end.

(** [path.encode()] and [blob.decode()] *)
Definition str_encode (s : string) : bytes := list_byte_of_string s.

Definition bytes_decode {S} (b : bytes) : M S string :=
  if utf8_valid b then ret (string_of_list_byte b)
  else raise (OtherError "UnicodeDecodeError").

Definition write_blob (blob : bytes) (path : string) : M FileSystem bool :=
  modify (fun fs => (path, blob) :: fs) ;; ret true.

Definition read_blob (path : string) : M FileSystem bytes :=
  fs <- gets (fun fs => fs) ;;
  match find (fun entry => String.eqb (fst entry) path) fs with
  | Some (_, blob) => ret blob
  | None => raise (OtherError "FileNotFoundError")
  end.

Definition FileSystemDataDocument : DocumentClass (string * bytes) FileSystem :=
  mkDocumentClass "FileSystemDataDocument" None ["s3"; "file"]%string
    (fun data =>
       let '(path, file_blob) := data in
       write_blob file_blob path ;;
       ret (str_encode path))
    (fun blob =>
       path <- bytes_decode blob ;;
       file_blob <- read_blob path ;;
       ret (path, file_blob)).

(** The base class: no [Literal] annotation, so no supported encoding, and
    both static methods raise. *)
Definition DataDocument_base {D W} : DocumentClass D W :=
  mkDocumentClass "DataDocument" None []
    (fun _ => raise NotImplementedError)
    (fun _ => raise NotImplementedError).

(** The reading under which any document whatever answers two reads in a
    row with the same value, having dispatched to [decode] once at most. *)
Definition any_document_decodes_at_most_once : Prop :=
  forall (D W : Type) (subclasses : list (DocumentClass D W)) (self : Ref)
         (i : Interp D W),
    let r1 := read subclasses self i in
    let r2 := read subclasses self (snd r1) in
    (exists data, fst r1 = Ok data /\ fst r2 = Ok data) /\
    List.length (decode_log (snd r2)) <= S (List.length (decode_log i)).

(** A document whose file is gone. *)
Definition orphaned_document : Interp (string * bytes) FileSystem :=
  mkInterp [mkDataDocument "file" (str_encode "/tmp/a") None] [] [].

(** ** Further functions of [schemas/data.py] *)

(** [create_datadoc] (lines 33-37) *)
Definition create_datadoc {D W} (subclasses : list (DocumentClass D W))
  (encoding : string) (data : D) : M (Interp D W) Ref :=
  cls <- get_datadoc_subclass subclasses encoding ;;
  create cls data (Some encoding).

(** [encoding in cls.supported_encodings()] *)
Definition supports {D W} (encoding : string) (cls : DocumentClass D W)
  : bool :=
  contains encoding (supported_encodings cls).

(** ** Further functions of [models/flow_runs.py] *)

(** [delete_flow_run] (lines 288-306).  What the foreign keys of the
    schema, which is not among the sources, do to the state rows of a
    deleted run is the parameter [cascade]; it acts only when a row was
    deleted.  The trace has no event for a delete. *)
Definition delete_flow_run {Rule}
  (cascade : UUID -> list FlowRunStateRow -> list FlowRunStateRow)
  (flow_run_id : UUID) : M (St Rule) bool :=
  t <- on_session (gets flow_run_table) ;;
  let rowcount_positive := existsb (has_id flow_run_id) t in
  on_session (modify (fun s =>
    set_flow_run_state_table
      (if rowcount_positive
       then cascade flow_run_id (flow_run_state_table s)
       else flow_run_state_table s)
      (set_flow_run_table
         (filter (fun r => negb (has_id flow_run_id r)) t) s))) ;;
  ret rowcount_positive.

(** Any collaborators, with another hook in the place of
    [validate_proposed_state]. *)
Definition with_validation (C : Collaborators) (v : Hook unit)
  : Collaborators :=
  mkCollaborators (@GlobalFlowPolicy C) (@CoreFlowPolicy C) (@aenter C)
                  (@aexit C) v (@update_values C).

(** A session holding one run whose current state is COMPLETED. *)
Definition completed_run : St SampleRule :=
  mkSt (mkSession [mkFlowRunRow 1%N 90%Z 9%N None (Some 5%N)]
                  [mkFlowRunStateRow 5%N 1%N COMPLETED 95%Z None]
                  sample_clock 0 sample_uuid4 0) [].

(** ** [tasks/great_expectations/checkpoints.py]

    [RunGreatExpectationsValidation.run] (lines 156-310) drives the Great
    Expectations library, the task's logger, the run-time context of the
    flow and [create_markdown_artifact]; none of them is among the
    sources.  They are taken as parameters, each call a function on the
    state [W] of the world outside the task that returns a value or
    raises.  The embedding keeps a log of the calls made. *)

Module GE.

Section Task.

Variables W DataContext Checkpoint Asset Results Rendered Value : Type.

(** A [dict] with string keys, in insertion order. *)
Definition Dict : Type := list (string * Value).

(** What [run] can raise: its own [ValueError] (line 257), the [FAIL]
    signal with the results attached (line 308), the interpreter's
    [TypeError] for a keyword passed twice (lines 267-271), and whatever
    a call into a library raises. *)
Inductive Signal : Type :=
| ValueError_exactly_one_required
| FAIL (result : Results)
| TypeError_multiple_values (keyword : string)
| LibraryError (what : string).

Inductive LibCall : Type :=
| LoggerWarn
| NewDataContext (context_root_dir : option string)
    (runtime_environment : Dict)
| GetCheckpoint (context : DataContext) (checkpoint_name : option string)
| CheckpointRun (ge_checkpoint : Checkpoint)
    (evaluation_parameters : option Dict) (run_name : option string)
    (checkpoint_kwargs : Dict)
| GetBatch (context : DataContext) (batch_kwargs : option Dict)
    (expectation_suite_name : option string)
| RunValidationOperator (context : DataContext)
    (validation_operator : string) (assets_to_validate : list Asset)
    (run_name : option string) (evaluation_parameters : option Dict)
| RenderValidationOperatorResult (run_info_at_end : bool)
    (validation_operator_result : Results)
| MarkdownPageViewRender (rendered_content_list : Rendered)
| CreateMarkdownArtifact (markdown : string).

Definition Op (A : Type) : Type := W -> (A + string) * W.

Record Library : Type := mkLibrary {
  (** [version.parse(ge.__version__) < version.parse("0.13.8")] *)
  version_below_0_13_8 : bool;
  (** [prefect.context.get("task_slug")] *)
  task_slug : option string;
  (** [bool(x)] of a [DataContext] and of a [Checkpoint] *)
  context_truthy : DataContext -> bool;
  checkpoint_truthy : Checkpoint -> bool;
  logger_warn : Op unit;
  data_context : option string -> Dict -> Op DataContext;
  get_checkpoint : DataContext -> option string -> Op Checkpoint;
  checkpoint_run :
    Checkpoint -> option Dict -> option string -> Dict -> Op Results;
  get_batch : DataContext -> option Dict -> option string -> Op Asset;
  run_validation_operator :
    DataContext -> string -> list Asset -> option string -> option Dict ->
    Op Results;
  (** [ValidationResultsPageRenderer(run_info_at_end=...)
      .render_validation_operator_result(validation_operator_result=...)] *)
  render_validation_operator_result : bool -> Results -> Op Rendered;
  (** [DefaultMarkdownPageView().render(...)], as the strings it yields *)
  markdown_page_view_render : Rendered -> Op (list string);
  create_markdown_artifact : string -> Op unit;
  (** [results.success], when it is a boolean *)
  success : Results -> option bool }.

Record Env : Type := mkEnv {
  ge_world : W;
  ge_calls : list LibCall }.

Definition T (A : Type) : Type := Env -> (A + Signal) * Env.

Definition done {A} (a : A) : T A := fun env => (inl a, env).

Definition and_then {A B} (m : T A) (k : A -> T B) : T B :=
  fun env =>
    match m env with
    | (inl a, env') => k a env'
    | (inr e, env') => (inr e, env')
    end.

Definition throw {A} (e : Signal) : T A := fun env => (inr e, env).

(** A call into a library: it is on record whether it returns or
    raises. *)
Definition call {A} (c : LibCall) (op : Op A) : T A :=
  fun env =>
    let '(r, w') := op (ge_world env) in
    (match r with
     | inl a => inl a
     | inr what => inr (LibraryError what)
     end,
     mkEnv w' (ge_calls env ++ [c])).

(** The arguments of [run], after [defaults_from_attrs]. *)
Record RunArgs : Type := mkRunArgs {
  checkpoint_name : option string;
  ge_checkpoint : option Checkpoint;
  checkpoint_kwargs : option Dict;
  context : option DataContext;
  assets_to_validate : option (list Asset);
  batch_kwargs : option Dict;
  expectation_suite_name : option string;
  context_root_dir : option string;
  runtime_environment : option Dict;
  run_name : option string;
  run_info_at_end : bool;
  disable_markdown_artifact : bool;
  validation_operator : string;
  evaluation_parameters : option Dict }.

(** Python truthiness of an optional list or [dict], and of an optional
    object whose class decides. *)
Definition truthy_list {A} (l : option (list A)) : bool :=
  match l with
  | Some (_ :: _) => true
  | _ => false
  end.

Definition truthy_with {A} (t : A -> bool) (o : option A) : bool :=
  match o with
  | Some x => t x
  | None => false
  end.

(** [d or dict()] (lines 234-235) *)
Definition or_dict (d : option Dict) : Dict :=
  match d with
  | Some (kv :: d') => kv :: d'
  | _ => []
  end.

(** [run_name or prefect.context.get("task_slug")] *)
Definition or_task_slug (L : Library) (run_name : option string)
  : option string :=
  if truthy_str run_name then run_name else task_slug L.

(** The four alternatives summed in lines 246-255. *)
Definition alternatives (L : Library) (a : RunArgs) : list bool :=
  [ truthy_str (expectation_suite_name a) && truthy_list (batch_kwargs a);
    truthy_list (assets_to_validate a);
    truthy_str (checkpoint_name a);
    truthy_with (checkpoint_truthy L) (ge_checkpoint a) ].

Definition exactly_one (bs : list bool) : bool :=
  Nat.eqb (List.length (filter (fun b => b) bs)) 1.

(** Lines 228-242: the version warning, then the context. *)
Definition prepare (L : Library) (a : RunArgs) : T DataContext :=
  let load :=
    call (NewDataContext (context_root_dir a)
                         (or_dict (runtime_environment a)))
         (data_context L (context_root_dir a)
                       (or_dict (runtime_environment a))) in
  and_then (if version_below_0_13_8 L then call LoggerWarn (logger_warn L)
            else done tt)
    (fun _ =>
       match context a with
       | Some c => if context_truthy L c then done c else load
       | None => load
       end).

(** Lines 245-260. *)
Definition check (L : Library) (a : RunArgs) : T unit :=
  if exactly_one (alternatives L a) then done tt
  else throw ValueError_exactly_one_required.

(** [f(evaluation_parameters=..., run_id=..., **checkpoint_kwargs)]: the
    first key of [checkpoint_kwargs] that repeats a keyword. *)
Definition repeated_keyword (checkpoint_kwargs : Dict) : option string :=
  option_map fst
    (find (fun kv => String.eqb (fst kv) "evaluation_parameters"
                     || String.eqb (fst kv) "run_id")
          checkpoint_kwargs).

(** The branch of line 265. *)
Definition checkpoint_route (L : Library) (a : RunArgs) : bool :=
  truthy_with (checkpoint_truthy L) (ge_checkpoint a)
  || truthy_str (checkpoint_name a).

(** Line 266: [ge_checkpoint or context.get_checkpoint(checkpoint_name)] *)
Definition resolve_checkpoint (L : Library) (a : RunArgs)
  (context : DataContext) : T Checkpoint :=
  let get :=
    call (GetCheckpoint context (checkpoint_name a))
         (get_checkpoint L context (checkpoint_name a)) in
  match ge_checkpoint a with
  | Some c => if checkpoint_truthy L c then done c else get
  | None => get
  end.

(** Lines 267-271. *)
Definition run_checkpoint (L : Library) (a : RunArgs)
  (ge_checkpoint : Checkpoint) : T Results :=
  match repeated_keyword (or_dict (checkpoint_kwargs a)) with
  | Some keyword => throw (TypeError_multiple_values keyword)
  | None =>
      call (CheckpointRun ge_checkpoint (evaluation_parameters a)
              (or_task_slug L (run_name a)) (or_dict (checkpoint_kwargs a)))
           (checkpoint_run L ge_checkpoint (evaluation_parameters a)
              (or_task_slug L (run_name a)) (or_dict (checkpoint_kwargs a)))
  end.

(** Lines 275-278. *)
Definition resolve_assets (L : Library) (a : RunArgs)
  (context : DataContext) : T (list Asset) :=
  match assets_to_validate a with
  | Some (x :: l) => done (x :: l)
  | _ =>
      and_then
        (call (GetBatch context (batch_kwargs a) (expectation_suite_name a))
              (get_batch L context (batch_kwargs a)
                 (expectation_suite_name a)))
        (fun batch => done [batch])
  end.

(** Lines 281-286. *)
Definition run_operator (L : Library) (a : RunArgs) (context : DataContext)
  (assets_to_validate : list Asset) : T Results :=
  call (RunValidationOperator context (validation_operator a)
          assets_to_validate (or_task_slug L (run_name a))
          (evaluation_parameters a))
       (run_validation_operator L context (validation_operator a)
          assets_to_validate (or_task_slug L (run_name a))
          (evaluation_parameters a)).

(** Lines 262-286. *)
Definition validate (L : Library) (a : RunArgs) (context : DataContext)
  : T Results :=
  if checkpoint_route L a
  then and_then (resolve_checkpoint L a context) (run_checkpoint L a)
  else and_then (resolve_assets L a context) (run_operator L a context).

(** Lines 288-305. *)
Definition post_artifact (L : Library) (a : RunArgs) (results : Results)
  : T unit :=
  if disable_markdown_artifact a then done tt
  else
    and_then
      (call (RenderValidationOperatorResult (run_info_at_end a) results)
            (render_validation_operator_result L (run_info_at_end a) results))
      (fun rendered_content_list =>
         and_then
           (call (MarkdownPageViewRender rendered_content_list)
                 (markdown_page_view_render L rendered_content_list))
           (fun pages =>
              let markdown_artifact := String.concat " " pages in
              call (CreateMarkdownArtifact markdown_artifact)
                   (create_markdown_artifact L markdown_artifact))).

(** Lines 307-310. *)
Definition conclude (L : Library) (results : Results) : T Results :=
  match success L results with
  | Some false => throw (FAIL results)
  | _ => done results
  end.

(** [RunGreatExpectationsValidation.run] *)
Definition run (L : Library) (a : RunArgs) : T Results :=
  and_then (prepare L a) (fun context =>
  and_then (check L a) (fun _ =>
  and_then (validate L a context) (fun results =>
  and_then (post_artifact L a results) (fun _ =>
  conclude L results)))).

(** The calls that run a validation, and those that post the artifact. *)
Definition is_validation (c : LibCall) : bool :=
  match c with
  | CheckpointRun _ _ _ _ | RunValidationOperator _ _ _ _ _ => true
  | _ => false
  end.

Definition is_artifact_call (c : LibCall) : bool :=
  match c with
  | RenderValidationOperatorResult _ _ | MarkdownPageViewRender _
  | CreateMarkdownArtifact _ => true
  | _ => false
  end.

(** The calls of lines 228-242 when none of them raises. *)
Definition preparation (L : Library) (a : RunArgs) : list LibCall :=
  (if version_below_0_13_8 L then [LoggerWarn] else [])
  ++ (if truthy_with (context_truthy L) (context a) then []
      else [NewDataContext (context_root_dir a)
                           (or_dict (runtime_environment a))]).

(** A validation call that the arguments of [run] select: it goes by the
    route of line 265, a checkpoint or a list of assets passed in is the
    one used, and the remaining arguments are handed on. *)
Definition selected (L : Library) (a : RunArgs) (v : LibCall) : Prop :=
  match v with
  | CheckpointRun cp ep rn kw =>
      checkpoint_route L a = true /\
      (forall c, ge_checkpoint a = Some c -> checkpoint_truthy L c = true ->
                 cp = c) /\
      ep = evaluation_parameters a /\
      rn = or_task_slug L (run_name a) /\
      kw = or_dict (checkpoint_kwargs a)
  | RunValidationOperator _ op assets rn ep =>
      checkpoint_route L a = false /\
      (truthy_list (assets_to_validate a) = true ->
       assets_to_validate a = Some assets) /\
      op = validation_operator a /\
      rn = or_task_slug L (run_name a) /\
      ep = evaluation_parameters a
  | _ => False
  end.

End Task.

Arguments ValueError_exactly_one_required {Results}.
Arguments FAIL {Results} result.
Arguments TypeError_multiple_values {Results} keyword.
Arguments LibraryError {Results} what.
Arguments LoggerWarn {DataContext Checkpoint Asset Results Rendered Value}.
Arguments NewDataContext {DataContext Checkpoint Asset Results Rendered Value}
  context_root_dir runtime_environment.
Arguments GetCheckpoint {DataContext Checkpoint Asset Results Rendered Value}
  context checkpoint_name.
Arguments CheckpointRun {DataContext Checkpoint Asset Results Rendered Value}
  ge_checkpoint evaluation_parameters run_name checkpoint_kwargs.
Arguments GetBatch {DataContext Checkpoint Asset Results Rendered Value}
  context batch_kwargs expectation_suite_name.
Arguments RunValidationOperator
  {DataContext Checkpoint Asset Results Rendered Value}
  context validation_operator assets_to_validate run_name
  evaluation_parameters.
Arguments RenderValidationOperatorResult
  {DataContext Checkpoint Asset Results Rendered Value}
  run_info_at_end validation_operator_result.
Arguments MarkdownPageViewRender
  {DataContext Checkpoint Asset Results Rendered Value}
  rendered_content_list.
Arguments CreateMarkdownArtifact
  {DataContext Checkpoint Asset Results Rendered Value} markdown.
Arguments is_validation {DataContext Checkpoint Asset Results Rendered Value}
  c.
Arguments is_artifact_call
  {DataContext Checkpoint Asset Results Rendered Value} c.

(** A library for examples: checkpoints are known by name, the one named
    [failing] reports no success, and results are their own [success]. *)
Definition sample_library
  : Library unit unit string string (option bool) string string :=
  mkLibrary false (Some "task-slug"%string) (fun _ => true) (fun _ => true)
    (fun w => (inl tt, w))
    (fun _ _ w => (inl tt, w))
    (fun _ name w =>
       (match name with
        | Some n => inl n
        | None => inr "CheckpointNotFoundError"%string
        end, w))
    (fun cp _ _ _ w =>
       (inl (Some (negb (String.eqb cp "failing"))), w))
    (fun _ _ _ w => (inl "batch"%string, w))
    (fun _ _ _ _ _ w => (inl (Some true), w))
    (fun _ _ w => (inl "rendered"%string, w))
    (fun _ w => (inl ["# Validation"%string; "results"%string], w))
    (fun _ w => (inl tt, w))
    (fun r => r).

Definition no_args : RunArgs unit string string string :=
  mkRunArgs None None None None None None None None None None true false
            "action_list_operator" None.

(** A checkpoint by name, with keyword arguments that name [run_id]. *)
Definition repeating_run_id : RunArgs unit string string string :=
  mkRunArgs (Some "nightly"%string) None
            (Some [("run_id"%string, "7"%string)]) (Some tt) None None None
            None None None true false "action_list_operator" None.

Definition start : Env unit unit string string (option bool) string string :=
  mkEnv tt [].

End GE.

(** * Properties *)

Unset Implicit Arguments.

(** ** The monad *)

Lemma bind_ok {S A B} (m : M S A) (k : A -> M S B) s a s' :
  m s = (Ok a, s') -> bind m k s = k a s'.
Proof. intros H. unfold bind. rewrite H. reflexivity. Qed.

Lemma for_each_app {S A} (xs ys : list A) (body : A -> M S unit) s :
  for_each (xs ++ ys) body s =
  bind (for_each xs body) (fun _ => for_each ys body) s.
Proof.
  revert s. induction xs as [| x xs IH]; intros s; simpl.
  - reflexivity.
  - unfold bind in *. destruct (body x s) as [[[] | e] s1].
    + apply IH.
    + reflexivity.
Qed.

Lemma for_each_map {S A B} (f : A -> B) (xs : list A) (body : B -> M S unit) s :
  for_each xs (fun x => body (f x)) s = for_each (map f xs) body s.
Proof.
  revert s. induction xs as [| x xs IH]; intros s; simpl.
  - reflexivity.
  - unfold bind. destruct (body (f x) s) as [[[] | e] s1]; [apply IH | reflexivity].
Qed.

(** ** The rule chain *)

Section ChainFacts.

Context {C : Collaborators}.

Lemma run_hook_frame {A} (h : Hook A) (c : Chain Rule) :
  chain_trace (snd (run_hook h c)) = chain_trace c /\
  chain_stack (snd (run_hook h c)) = chain_stack c.
Proof.
  unfold run_hook, chain_trace.
  destruct (h (chain_context c, session (chain_st c))) as [r [ctx' s']].
  simpl. split; reflexivity.
Qed.

(** Whatever its entry phase does, entering a rule records the attempt;
    the exit callback is registered exactly when the entry returned. *)
Lemma enter_async_context_frame (cm : RuleInstance Rule) (c : Chain Rule) :
  let r := enter_async_context cm c in
  chain_trace (snd r) = chain_trace c ++ [RuleEnter cm] /\
  chain_stack (snd r) =
    (if is_ok (fst r) then cm :: chain_stack c else chain_stack c).
Proof.
  unfold enter_async_context, on_st, emit, modify, push_exit, bind.
  destruct c as [ctx stk [s tr]]. cbn -[run_hook].
  pose proof (run_hook_frame (aenter cm)
                (mkChain ctx stk (mkSt s (tr ++ [RuleEnter cm])))) as [Ht Hs].
  destruct (run_hook (aenter cm) (mkChain ctx stk (mkSt s (tr ++ [RuleEnter cm]))))
    as [[[] | e] c1]; unfold chain_trace in *; cbn in *; split; congruence.
Qed.

(** A completed run of entries has recorded all of them in order and
    stacked their exit callbacks, the last one on top. *)
Lemma entries_ok (cms : list (RuleInstance Rule)) (c c' : Chain Rule) :
  for_each cms enter_async_context c = (Ok tt, c') ->
  chain_trace c' = chain_trace c ++ map (@RuleEnter Rule) cms /\
  chain_stack c' = rev cms ++ chain_stack c.
Proof.
  revert c. induction cms as [| cm cms IH]; intros c H; simpl in *.
  - inversion H; subst. rewrite app_nil_r. split; reflexivity.
  - unfold bind in H.
    pose proof (enter_async_context_frame cm c) as [Ht Hs].
    destruct (enter_async_context cm c) as [[[] | e] c1]; [| discriminate H].
    cbn in Ht, Hs. apply IH in H as [Ht' Hs'].
    rewrite Ht', Ht, Hs', Hs, <- !app_assoc. split; reflexivity.
Qed.

(** In any run of entries, completed or aborted, the rules attempted are
    the first ones of the list, in order. *)
Lemma entries_prefix (cms : list (RuleInstance Rule)) (c : Chain Rule) :
  exists n,
    chain_trace (snd (for_each cms enter_async_context c)) =
    chain_trace c ++ map (@RuleEnter Rule) (firstn n cms).
Proof.
  revert c. induction cms as [| cm cms IH]; intros c; simpl.
  - exists 0. simpl. rewrite app_nil_r. reflexivity.
  - unfold bind.
    pose proof (enter_async_context_frame cm c) as [Ht _].
    destruct (enter_async_context cm c) as [[[] | e] c1]; cbn in Ht.
    + destruct (IH c1) as [n Hn]. exists (S n).
      rewrite Hn, Ht, <- app_assoc. reflexivity.
    + exists 1. cbn. rewrite Ht. reflexivity.
Qed.

(** Unwinding calls every registered exit callback, top of the stack
    first, whatever the callbacks return or raise. *)
Lemma unwind_trace (callbacks : list (RuleInstance Rule))
  (pending : option PyExc) (c : Chain Rule) :
  chain_trace (snd (unwind callbacks pending c)) =
  chain_trace c ++ map (@RuleExit Rule) callbacks.
Proof.
  revert pending c. induction callbacks as [| cb rest IH]; intros pending c.
  - simpl. rewrite app_nil_r. reflexivity.
  - cbn [unwind map]. unfold on_st, emit, modify, bind.
    destruct c as [ctx stk [s tr]]. cbn -[run_hook unwind].
    pose proof (run_hook_frame (aexit cb pending)
                  (mkChain ctx stk (mkSt s (tr ++ [RuleExit cb])))) as [Ht _].
    destruct (run_hook (aexit cb pending)
                (mkChain ctx stk (mkSt s (tr ++ [RuleExit cb]))))
      as [[[|] | e] c1]; cbn in Ht; rewrite IH, Ht;
      unfold chain_trace; cbn; rewrite <- app_assoc; reflexivity.
Qed.

End ChainFacts.

Section EngineFacts.

Context {C : Collaborators}.

Lemma entry_phase_flat (core glob : list Rule)
  (transition : option StateType * option StateType) (c : Chain Rule) :
  entry_phase core glob (fst transition) (snd transition) c =
  for_each (core_instances core transition ++ global_instances glob)
           enter_async_context c.
Proof.
  unfold entry_phase, core_instances, global_instances.
  rewrite for_each_app. unfold bind.
  rewrite (for_each_map
             (fun rule => CoreRule rule (fst transition) (snd transition))
             core enter_async_context c).
  destruct (for_each _ enter_async_context c) as [[[] | e] c1].
  - apply (for_each_map (@GlobalRule Rule) glob enter_async_context c1).
  - reflexivity.
Qed.

(** With the run found, an invocation is the rule chain run from
    [engine_started], followed by the flush and the result. *)
Lemma set_flow_run_state_found (st : St Rule) flow_run_id state force run :
  find (has_id flow_run_id) (flow_run_table (session st)) = Some run ->
  set_flow_run_state flow_run_id state force st =
  (let initial_state := run_state (session st) run in
   let transition := intended_transition initial_state state in
   context <- async_with_exit_stack (new_context run initial_state state)
                (chain_body (fst (compiled_rules force transition))
                            (snd (compiled_rules force transition))
                            (fst transition) (snd transition)) ;;
   emit SessionFlush ;;
   ret (mkResult (ctx_validated_state context) (ctx_response_status context)
                 (ctx_response_details context)))%py
    (engine_started st flow_run_id state force).
Proof.
  intros Hrun. destruct st as [s tr].
  unfold set_flow_run_state, read_flow_run, engine_started, emit, modify,
    on_session, session_get, gets, bind. cbn in *.
  rewrite Hrun. cbn. rewrite <- app_assoc. cbn.
  destruct (compiled_rules force
              (intended_transition (run_state s run) state)) as [core glob].
  reflexivity.
Qed.

Lemma set_flow_run_state_not_found (st : St Rule)
  (flow_run_id : UUID) (state : option State) (force : bool) :
  find (has_id flow_run_id) (flow_run_table (session st)) = None ->
  set_flow_run_state flow_run_id state force st =
  (Raise (ValueError_invalid_flow_run flow_run_id),
   engine_started st flow_run_id state force).
Proof.
  intros Hrun. destruct st as [s tr].
  unfold set_flow_run_state, read_flow_run, engine_started, emit, modify,
    on_session, session_get, gets, bind, raise. cbn in *.
  rewrite Hrun, <- app_assoc. reflexivity.
Qed.

(** A chain whose entries all returned: entries in order, the terminal
    step once, the exits in reverse. *)
Lemma chain_completed (context : FlowOrchestrationContext)
  (core glob : list Rule) (transition : option StateType * option StateType)
  (st : St Rule) :
  is_ok (fst (entry_phase core glob (fst transition) (snd transition)
                (mkChain context [] st))) = true ->
  let entered := core_instances core transition ++ global_instances glob in
  trace (snd (async_with_exit_stack context
                (chain_body core glob (fst transition) (snd transition)) st)) =
  trace st ++ map (@RuleEnter Rule) entered ++ [Validate]
           ++ map (@RuleExit Rule) (rev entered).
Proof.
  intros Hok entered.
  unfold async_with_exit_stack, chain_body.
  destruct (entry_phase core glob (fst transition) (snd transition)
              (mkChain context [] st)) as [[[] | e] c1] eqn:He;
    [clear Hok | discriminate Hok].
  rewrite (bind_ok _ _ _ _ _ He).
  rewrite entry_phase_flat in He. apply entries_ok in He as [Ht Hs].
  cbn in Ht, Hs. rewrite app_nil_r in Hs. fold entered in Ht, Hs.
  unfold on_st, emit, modify, bind. destruct c1 as [ctx1 stk1 [s1 tr1]].
  unfold chain_trace in Ht. cbn in Ht, Hs. subst stk1 tr1. cbn -[run_hook].
  pose proof (run_hook_frame validate_proposed_state
    (mkChain ctx1 (rev entered)
       (mkSt s1 ((trace st ++ map (@RuleEnter Rule) entered) ++ [Validate]))))
    as [Ht Hs].
  destruct (run_hook validate_proposed_state _) as [r c2].
  cbn in Ht, Hs. rewrite Hs.
  pose proof (unwind_trace (rev entered) (raised r)
                (mkChain (chain_context c2) [] (chain_st c2))) as Hu.
  destruct (unwind (rev entered) (raised r) _) as [pending c3].
  unfold chain_trace in Hu, Ht. cbn in Hu.
  assert (Hgoal : trace (chain_st c3) =
                  trace st ++ map (@RuleEnter Rule) entered ++ [Validate]
                    ++ map (@RuleExit Rule) (rev entered)).
  { rewrite Hu, Ht, <- !app_assoc. reflexivity. }
  destruct pending; exact Hgoal.
Qed.

End EngineFacts.

Section EntriesOf.

Context {Rule : Type}.

Lemma entries_of_app (a b : list (Event Rule)) :
  entries_of (a ++ b) = entries_of a ++ entries_of b.
Proof. unfold entries_of. apply flat_map_app. Qed.

Lemma entries_of_enters (cms : list (RuleInstance Rule)) :
  entries_of (map (@RuleEnter Rule) cms) = cms.
Proof.
  induction cms as [| cm cms IH]; simpl; [reflexivity | now rewrite IH].
Qed.

Lemma entries_of_exits (cms : list (RuleInstance Rule)) :
  entries_of (map (@RuleExit Rule) cms) = [].
Proof. induction cms as [| cm cms IH]; simpl; [reflexivity | exact IH]. Qed.

End EntriesOf.

(** The events of any chain, aborted or not: entries of the first rules
    of the compiled lists, the terminal step if all of them returned,
    then exits. *)
Lemma chain_shape {C : Collaborators}
  (context : FlowOrchestrationContext) (core glob : list Rule)
  (transition : option StateType * option StateType) (st : St Rule) :
  exists n (validated : bool) exits,
    trace (snd (async_with_exit_stack context
                  (chain_body core glob (fst transition) (snd transition)) st))
    = trace st
      ++ map (@RuleEnter Rule)
           (firstn n (core_instances core transition ++ global_instances glob))
      ++ (if validated then [Validate] else [])
      ++ map (@RuleExit Rule) exits.
Proof.
  unfold async_with_exit_stack, chain_body.
  destruct (entries_prefix
              (core_instances core transition ++ global_instances glob)
              (mkChain context [] st)) as [n Hn].
  rewrite <- entry_phase_flat in Hn. exists n.
  unfold bind at 1.
  destruct (entry_phase core glob (fst transition) (snd transition)
              (mkChain context [] st)) as [[[] | e] c1];
    unfold chain_trace in Hn; cbn in Hn.
  - unfold on_st, emit, modify, bind. destruct c1 as [ctx1 stk1 [s1 tr1]].
    cbn in Hn. subst tr1. cbn -[run_hook].
    match goal with
    | |- context [run_hook validate_proposed_state ?c] =>
        pose proof (run_hook_frame validate_proposed_state c) as [Ht _];
        destruct (run_hook validate_proposed_state c) as [r c2]
    end.
    cbn in Ht.
    pose proof (unwind_trace (chain_stack c2) (raised r)
                  (mkChain (chain_context c2) [] (chain_st c2))) as Hu.
    destruct (unwind (chain_stack c2) (raised r) _) as [pending c3].
    unfold chain_trace in Hu, Ht. cbn in Hu.
    exists true, (chain_stack c2).
    assert (Hgoal : trace (chain_st c3) =
              trace st
              ++ map (@RuleEnter Rule)
                   (firstn n (core_instances core transition
                              ++ global_instances glob))
              ++ [Validate] ++ map (@RuleExit Rule) (chain_stack c2)).
    { rewrite Hu, Ht, <- !app_assoc. reflexivity. }
    destruct pending; exact Hgoal.
  - cbn.
    pose proof (unwind_trace (chain_stack c1) (Some e)
                  (mkChain (chain_context c1) [] (chain_st c1))) as Hu.
    destruct (unwind (chain_stack c1) (Some e) _) as [pending c3].
    unfold chain_trace in Hu. cbn in Hu.
    exists false, (chain_stack c1).
    assert (Hgoal : trace (chain_st c3) =
              trace st
              ++ map (@RuleEnter Rule)
                   (firstn n (core_instances core transition
                              ++ global_instances glob))
              ++ [] ++ map (@RuleExit Rule) (chain_stack c1)).
    { rewrite Hu, Hn, <- !app_assoc. reflexivity. }
    destruct pending; exact Hgoal.
Qed.

Lemma chain_entries_prefix {C : Collaborators}
  (context : FlowOrchestrationContext) (core glob : list Rule)
  (transition : option StateType * option StateType) (st : St Rule) :
  exists n,
    entries_of (trace (snd (async_with_exit_stack context
                  (chain_body core glob (fst transition) (snd transition)) st)))
    = entries_of (trace st)
      ++ firstn n (core_instances core transition ++ global_instances glob).
Proof.
  destruct (chain_shape context core glob transition st)
    as (n & validated & exits & H).
  exists n. rewrite H, !entries_of_app, entries_of_enters, entries_of_exits.
  destruct validated; cbn; rewrite !app_nil_r; reflexivity.
Qed.

Section EngineCalls.

Context {Rule : Type}.

Lemma engine_calls_app (a b : list (Event Rule)) :
  engine_calls (a ++ b) = engine_calls a ++ engine_calls b.
Proof. unfold engine_calls. apply flat_map_app. Qed.

Lemma engine_calls_enters (cms : list (RuleInstance Rule)) :
  engine_calls (map (@RuleEnter Rule) cms) = [].
Proof. induction cms as [| cm cms IH]; simpl; [reflexivity | exact IH]. Qed.

Lemma engine_calls_exits (cms : list (RuleInstance Rule)) :
  engine_calls (map (@RuleExit Rule) cms) = [].
Proof. induction cms as [| cm cms IH]; simpl; [reflexivity | exact IH]. Qed.

End EngineCalls.

(** An invocation puts exactly one call on record: its own. *)
Lemma set_flow_run_state_calls {C : Collaborators} (st : St Rule)
  (flow_run_id : UUID) (state : option State) (force : bool) :
  engine_calls (trace (snd (set_flow_run_state flow_run_id state force st))) =
  engine_calls (trace st) ++ [(flow_run_id, state, force)].
Proof.
  assert (Hst : engine_calls
                  (trace (engine_started st flow_run_id state force)) =
                engine_calls (trace st) ++ [(flow_run_id, state, force)]).
  { unfold engine_started. cbn [trace]. rewrite engine_calls_app.
    reflexivity. }
  destruct (find (has_id flow_run_id) (flow_run_table (session st)))
    as [run |] eqn:Hrun.
  - rewrite (set_flow_run_state_found st flow_run_id state force run Hrun).
    cbv zeta. unfold bind.
    destruct (chain_shape
                (new_context run (run_state (session st) run) state)
                (fst (compiled_rules force
                        (intended_transition (run_state (session st) run)
                                             state)))
                (snd (compiled_rules force
                        (intended_transition (run_state (session st) run)
                                             state)))
                (intended_transition (run_state (session st) run) state)
                (engine_started st flow_run_id state force))
      as (n & validated & exits & H).
    destruct (async_with_exit_stack _ _ _) as [[context | e] st2];
      cbn [snd] in H; unfold emit, modify, ret; cbn [snd trace];
      rewrite ?engine_calls_app, H, !engine_calls_app, engine_calls_enters,
        engine_calls_exits, Hst;
      destruct validated; cbn; rewrite ?app_nil_r; reflexivity.
  - rewrite (set_flow_run_state_not_found st flow_run_id state force Hrun).
    exact Hst.
Qed.

(** ** The engine driver *)

(** C2.  The Global rules compiled for the intended transition are always
    in the rule list; the Core rules are in it exactly when [force] is
    false, and with [force] the Core list is empty.  In every invocation
    that finds its run, the rules entered are the first ones of these two
    lists, Core before Global. *)
Theorem force_skips_core_rules (C : Collaborators) (force : bool)
  (st : St Rule) (flow_run_id : UUID) (state : option State)
  (run : FlowRunRow) :
  find (has_id flow_run_id) (flow_run_table (session st)) = Some run ->
  let transition := intended_transition (run_state (session st) run) state in
  let core := fst (compiled_rules force transition) in
  let glob := snd (compiled_rules force transition) in
  glob = compile_transition_rules GlobalFlowPolicy
           (fst transition) (snd transition) /\
  (forall rule,
     In rule core <->
     force = false /\
     In rule (compile_transition_rules CoreFlowPolicy
                (fst transition) (snd transition))) /\
  (force = true -> core = []) /\
  exists n,
    entries_of (trace (snd (set_flow_run_state flow_run_id state force st))) =
    entries_of (trace st)
    ++ firstn n (core_instances core transition ++ global_instances glob).
Proof.
  intros Hrun transition core glob.
  assert (Hglob : glob = compile_transition_rules GlobalFlowPolicy
                           (fst transition) (snd transition)).
  { unfold glob, compiled_rules. destruct transition. reflexivity. }
  assert (Hcore : core =
                  if force then []
                  else compile_transition_rules CoreFlowPolicy
                         (fst transition) (snd transition)).
  { unfold core, compiled_rules. destruct transition. reflexivity. }
  split; [exact Hglob |]. split; [| split].
  - intros rule. rewrite Hcore. destruct force; simpl.
    + split; [intros [] | intros [H _]; discriminate H].
    + split; [intros H; split; [reflexivity | exact H] | intros [_ H]; exact H].
  - intros ->. exact Hcore.
  - rewrite (set_flow_run_state_found st flow_run_id state force run Hrun).
    cbv zeta. fold transition. fold core. fold glob.
    destruct (chain_entries_prefix
                (new_context run (run_state (session st) run) state)
                core glob transition
                (engine_started st flow_run_id state force)) as [n Hn].
    assert (Hst : entries_of (trace (engine_started st flow_run_id state force))
                  = entries_of (trace st)).
    { unfold engine_started. cbn [trace]. rewrite entries_of_app.
      apply app_nil_r. }
    rewrite Hst in Hn. clear Hst.
    exists n. unfold bind.
    destruct (async_with_exit_stack _ _ _) as [[context | e] st2].
    + cbn [snd] in Hn. unfold emit, modify, ret. cbn [snd trace].
      rewrite entries_of_app, Hn. cbn. rewrite app_nil_r. reflexivity.
    + exact Hn.
Qed.

Lemma force_skips_core_rules_witness :
  find (has_id 1%N) (flow_run_table (session one_run)) = Some sample_run /\
  fst (compiled_rules (C := sample_collaborators) true
         (None, Some SCHEDULED)) = [] /\
  entries_of (trace (snd (set_flow_run_state (C := sample_collaborators)
                            1%N (Some sample_scheduled) true one_run))) =
  [GlobalRule NoteTransition].
Proof.
  split; [reflexivity |].
  pose proof (@force_skips_core_rules sample_collaborators true one_run 1%N
                (Some sample_scheduled) sample_run eq_refl) as H.
  cbv zeta in H. destruct H as (_ & _ & Hcore & _).
  split; [exact (Hcore eq_refl) | reflexivity].
Defined.



(** C5.  An invocation whose run identifier matches no run raises the
    invalid-flow-run error once the load has come back empty: no rule is
    entered, the terminal step does not run, and the session, with its run
    rows and state rows, is exactly as before. *)
Theorem set_flow_run_state_missing_run (C : Collaborators) (st : St Rule)
  (flow_run_id : UUID) (state : option State) (force : bool) :
  find (has_id flow_run_id) (flow_run_table (session st)) = None ->
  set_flow_run_state flow_run_id state force st =
  (Raise (ValueError_invalid_flow_run flow_run_id),
   mkSt (session st)
        (trace st
         ++ [EngineCall flow_run_id state force; SessionGet flow_run_id])).
Proof.
  intros Hrun. exact (set_flow_run_state_not_found st flow_run_id state force Hrun).
Qed.

Lemma set_flow_run_state_missing_run_witness :
  find (has_id 2%N) (flow_run_table (session one_run)) = None /\
  set_flow_run_state (C := sample_collaborators)
    2%N (Some sample_scheduled) false one_run =
  (Raise (ValueError_invalid_flow_run 2%N),
   mkSt (session one_run)
        [EngineCall 2%N (Some sample_scheduled) false; SessionGet 2%N]).
Proof.
  split; [reflexivity |].
  exact (@set_flow_run_state_missing_run sample_collaborators one_run 2%N
           (Some sample_scheduled) false eq_refl).
Defined.

(** C7.  When neither policy has a rule for the intended transition, the
    chain consists of the terminal step alone: it runs, the proposed state
    is stored as a new state row of the run, the run's pointer moves to
    it, and the result is ACCEPT with that state. *)
Theorem no_matching_rule_accepts (C : Collaborators) (st : St Rule)
  (flow_run_id : UUID) (proposed : State) (force : bool) (run : FlowRunRow) :
  find (has_id flow_run_id) (flow_run_table (session st)) = Some run ->
  let transition :=
    intended_transition (run_state (session st) run) (Some proposed) in
  compile_transition_rules CoreFlowPolicy (fst transition) (snd transition)
    = [] ->
  compile_transition_rules GlobalFlowPolicy (fst transition) (snd transition)
    = [] ->
  set_flow_run_state (C := with_terminal_step C)
    flow_run_id (Some proposed) force st =
  (Ok (mkResult (Some proposed) (Some ACCEPT) None),
   mkSt (set_flow_run_table
           (map (advance_pointer (row_id run) (state_id proposed))
                (flow_run_table (session st)))
           (set_flow_run_state_table
              (flow_run_state_table (session st)
               ++ [state_row (row_id run) proposed])
              (session st)))
        (trace st
         ++ [EngineCall flow_run_id (Some proposed) force;
             SessionGet flow_run_id; Validate; SessionFlush])).
Proof.
  intros Hrun transition Hcore Hglob.
  rewrite (@set_flow_run_state_found (with_terminal_step C) st flow_run_id
             (Some proposed) force run Hrun).
  cbv zeta.
  set (t := intended_transition
              (run_state (@session (@Rule (with_terminal_step C)) st) run)
              (Some proposed)).
  change transition with t in Hcore, Hglob.
  assert (Hc : compiled_rules (C := with_terminal_step C) force t = ([], [])).
  { unfold compiled_rules. destruct t as [from_type to_type].
    cbn in Hcore, Hglob |- *. rewrite Hcore, Hglob.
    destruct force; reflexivity. }
  rewrite Hc. destruct st as [s tr]. cbn.
  rewrite <- !app_assoc. reflexivity.
Qed.

Lemma no_matching_rule_accepts_witness :
  find (has_id 1%N) (flow_run_table (session one_run)) = Some sample_run /\
  compile_transition_rules (@CoreFlowPolicy no_rules) None (Some SCHEDULED)
    = [] /\
  compile_transition_rules (@GlobalFlowPolicy no_rules) None (Some SCHEDULED)
    = [] /\
  fst (set_flow_run_state (C := with_terminal_step no_rules)
         1%N (Some sample_scheduled) false one_run) =
  Ok (mkResult (Some sample_scheduled) (Some ACCEPT) None).
Proof.
  split; [reflexivity |]. split; [reflexivity |]. split; [reflexivity |].
  exact (f_equal fst
           (@no_matching_rule_accepts no_rules one_run 1%N sample_scheduled
              false sample_run eq_refl eq_refl eq_refl)).
Defined.

(** ** [update_flow_run] *)

(** C8.  An update whose payload is not a [FlowRunUpdate] raises the
    [ValueError] of line 115 before any statement is executed: the session
    and the trace are exactly as before. *)
Theorem update_flow_run_rejects_other_types (C : Collaborators)
  (st : St Rule) (flow_run_id : UUID) (type_repr : string) :
  update_flow_run flow_run_id (OfOtherType type_repr) st =
  (Raise (ValueError_expected_FlowRunUpdate type_repr), st).
Proof. reflexivity. Qed.

(** ** What the engine leaves alone *)

Section Preservation.

Context {C : Collaborators} {X : Type} (P : Session -> X).
Hypothesis HC : collaborators_keep P C.

Local Abbreviation chain_P c := (P (session (chain_st c))).

Lemma run_hook_keeps {A} (h : Hook A) (c : Chain Rule) :
  keeps P h -> chain_P (snd (run_hook h c)) = chain_P c.
Proof.
  intros Hh. unfold run_hook.
  specialize (Hh (chain_context c) (session (chain_st c))).
  destruct (h (chain_context c, session (chain_st c))) as [r [ctx' s']].
  exact Hh.
Qed.

Lemma enter_keeps (cm : RuleInstance Rule) (c : Chain Rule) :
  chain_P (snd (enter_async_context cm c)) = chain_P c.
Proof.
  unfold enter_async_context, on_st, emit, modify, push_exit, bind.
  destruct c as [ctx stk [s tr]]. cbn -[run_hook].
  pose proof (@run_hook_keeps unit (aenter cm)
                (mkChain ctx stk (mkSt s (tr ++ [RuleEnter cm])))
                (proj1 HC cm)) as Hk.
  destruct (run_hook (aenter cm) _) as [[[] | e] c1]; exact Hk.
Qed.

Lemma entries_keep (cms : list (RuleInstance Rule)) (c : Chain Rule) :
  chain_P (snd (for_each cms enter_async_context c)) = chain_P c.
Proof.
  revert c. induction cms as [| cm cms IH]; intros c; simpl.
  - reflexivity.
  - unfold bind. pose proof (enter_keeps cm c) as Hk.
    destruct (enter_async_context cm c) as [[[] | e] c1]; cbn in Hk.
    + rewrite IH. exact Hk.
    + exact Hk.
Qed.

Lemma unwind_keeps (callbacks : list (RuleInstance Rule))
  (pending : option PyExc) (c : Chain Rule) :
  chain_P (snd (unwind callbacks pending c)) = chain_P c.
Proof.
  revert pending c. induction callbacks as [| cb rest IH]; intros pending c.
  - reflexivity.
  - cbn [unwind]. unfold on_st, emit, modify, bind.
    destruct c as [ctx stk [s tr]]. cbn -[run_hook unwind].
    pose proof (@run_hook_keeps bool (aexit cb pending)
                  (mkChain ctx stk (mkSt s (tr ++ [RuleExit cb])))
                  (proj1 (proj2 HC) cb pending)) as Hk.
    destruct (run_hook (aexit cb pending) _) as [[[|] | e] c1];
      rewrite IH; exact Hk.
Qed.

Lemma chain_keeps (context : FlowOrchestrationContext)
  (core glob : list Rule) (transition : option StateType * option StateType)
  (st : St Rule) :
  P (session (snd (async_with_exit_stack context
        (chain_body core glob (fst transition) (snd transition)) st))) =
  P (session st).
Proof.
  unfold async_with_exit_stack, chain_body.
  pose proof (entries_keep
                (core_instances core transition ++ global_instances glob)
                (mkChain context [] st)) as He.
  rewrite <- entry_phase_flat in He. unfold bind at 1.
  destruct (entry_phase core glob (fst transition) (snd transition)
              (mkChain context [] st)) as [[[] | e] c1]; cbn in He.
  - unfold on_st, emit, modify, bind. destruct c1 as [ctx1 stk1 [s1 tr1]].
    cbn -[run_hook].
    match goal with
    | |- context [run_hook validate_proposed_state ?c] =>
        pose proof (@run_hook_keeps unit validate_proposed_state c
                      (proj2 (proj2 HC))) as Hv;
        destruct (run_hook validate_proposed_state c) as [r c2]
    end.
    pose proof (unwind_keeps (chain_stack c2) (raised r)
                  (mkChain (chain_context c2) [] (chain_st c2))) as Hu.
    destruct (unwind (chain_stack c2) (raised r) _) as [pending c3].
    cbn in *.
    assert (Hgoal : P (session (chain_st c3)) = P (session st))
      by (rewrite Hu, Hv; exact He).
    destruct pending; exact Hgoal.
  - cbn.
    pose proof (unwind_keeps (chain_stack c1) (Some e)
                  (mkChain (chain_context c1) [] (chain_st c1))) as Hu.
    destruct (unwind (chain_stack c1) (Some e) _) as [pending c3].
    cbn in *.
    assert (Hgoal : P (session (chain_st c3)) = P (session st))
      by (rewrite Hu; exact He).
    destruct pending; exact Hgoal.
Qed.

(** Whatever the outcome, an invocation leaves alone what its hooks leave
    alone. *)
Lemma set_flow_run_state_keeps (st : St Rule) flow_run_id state force :
  P (session (snd (set_flow_run_state flow_run_id state force st))) =
  P (session st).
Proof.
  destruct (find (has_id flow_run_id) (flow_run_table (session st)))
    as [run |] eqn:Hrun.
  - rewrite (set_flow_run_state_found st flow_run_id state force run Hrun).
    cbv zeta. unfold bind.
    pose proof (chain_keeps
                  (new_context run (run_state (session st) run) state)
                  (fst (compiled_rules force
                          (intended_transition (run_state (session st) run)
                                               state)))
                  (snd (compiled_rules force
                          (intended_transition (run_state (session st) run)
                                               state)))
                  (intended_transition (run_state (session st) run) state)
                  (engine_started st flow_run_id state force)) as Hk.
    destruct (async_with_exit_stack _ _ _) as [[context | e] st2];
      exact Hk.
  - rewrite (set_flow_run_state_not_found st flow_run_id state force Hrun).
    reflexivity.
Qed.

End Preservation.

(** ** Storage *)

Lemma existsb_find {A} (f : A -> bool) (l : list A) :
  existsb f l = match find f l with Some _ => true | None => false end.
Proof.
  induction l as [| x l IH]; simpl; [reflexivity |].
  destruct (f x); [reflexivity | exact IH].
Qed.

Lemma find_app_new {A} (f : A -> bool) (l : list A) (x : A) :
  find f l = None -> f x = true -> find f (l ++ [x]) = Some x.
Proof.
  intros Hl Hx. induction l as [| y l IH]; simpl in *.
  - rewrite Hx. reflexivity.
  - destruct (f y); [discriminate Hl | exact (IH Hl)].
Qed.

Lemma sql_eq_key_refl (key : option string) :
  truthy_str key = true -> sql_eq_key key key = true.
Proof.
  destruct key as [k |]; simpl; [intros _; apply String.eqb_refl |].
  intros H; discriminate H.
Qed.

(** The storage defaults touch the cursors only, and fill in the
    identifier and the creation timestamp when the statement has none. *)
Lemma with_defaults_row (id : option UUID) (created : option DateTime)
  (flow_id : UUID) (key : option string) (s : Session) :
  exists new s',
    with_defaults id created flow_id key s = (Ok new, s') /\
    row_flow_id new = flow_id /\ row_idempotency_key new = key /\
    row_state_id new = None /\
    flow_run_table s' = flow_run_table s /\
    flow_run_state_table s' = flow_run_state_table s /\
    (forall i, id = Some i -> row_id new = i) /\
    (forall c, created = Some c -> row_created new = c) /\
    (created = None -> row_created new = clock s (clock_reads s)).
Proof.
  unfold with_defaults, bind, ret, draw_uuid4, read_clock.
  destruct id as [i |], created as [c |]; cbn;
    eexists; eexists; (split; [reflexivity |]); cbn;
    repeat split; try congruence; intros; congruence.
Qed.

(** Under the primary key, a row of the table is the one a load by its
    identifier returns. *)
Lemma find_by_own_id (t : list FlowRunRow) (r : FlowRunRow) :
  NoDup (map row_id t) -> In r t -> find (has_id (row_id r)) t = Some r.
Proof.
  induction t as [| x t IH]; intros Hnd Hin; [destruct Hin |].
  cbn in Hnd. apply NoDup_cons_iff in Hnd as [Hx Hnd]. cbn.
  destruct Hin as [-> | Hin].
  - unfold has_id. rewrite N.eqb_refl. reflexivity.
  - unfold has_id at 1. destruct (N.eqb_spec (row_id x) (row_id r)) as [E | _].
    + exfalso. apply Hx. rewrite E. apply in_map. exact Hin.
    + exact (IH Hnd Hin).
Qed.

Lemma insert_keeps_unique_ids (t : list FlowRunRow) (new : FlowRunRow) :
  violates_primary_key new t = false ->
  NoDup (map row_id t) -> NoDup (map row_id (t ++ [new])).
Proof.
  intros Hpk Hnd. rewrite map_app. apply NoDup_app.
  - exact Hnd.
  - cbn. constructor; [intros [] | constructor].
  - intros i Hi [<- | []]. apply in_map_iff in Hi as (x & Hx & Hin).
    unfold violates_primary_key in Hpk.
    assert (Hex : existsb (has_id (row_id new)) t = true).
    { apply existsb_exists. exists x. split; [exact Hin |].
      unfold has_id. rewrite Hx. apply N.eqb_refl. }
    rewrite Hex in Hpk. discriminate Hpk.
Qed.

Section IdempotentInsert.

Context {Rule : Type}.

Local Abbreviation both := (@insert_and_select Rule).

(** The two ways the insert-then-read-back of lines 61-83 can go. *)
Lemma insert_then_read_back_cases (st : St Rule) (flow_run : FlowRun) :
  truthy_str (fr_idempotency_key flow_run) = true ->
  match find (same_unique_keys (fr_flow_id flow_run)
                               (fr_idempotency_key flow_run))
             (flow_run_table (session st)) with
  | Some existing =>
      insert_then_read_back flow_run st =
      (Ok existing, mkSt (session st) (trace st ++ both))
  | None =>
      exists new s',
        with_defaults
          (if fr_id_set flow_run then Some (fr_id flow_run) else None)
          (fr_created flow_run) (fr_flow_id flow_run)
          (fr_idempotency_key flow_run) (session st) = (Ok new, s') /\
        insert_then_read_back flow_run st =
        if violates_primary_key new (flow_run_table (session st))
        then (Raise IntegrityError,
              mkSt s' (trace st
                       ++ [SessionExecute InsertOnConflictDoNothing]))
        else (Ok new,
              mkSt (set_flow_run_table
                      (flow_run_table (session st) ++ [new]) s')
                   (trace st ++ both))
  end.
Proof.
  intros Hkey. destruct st as [s tr]. cbn [session trace].
  destruct (find _ (flow_run_table s)) as [existing |] eqn:Hfind.
  - unfold insert_then_read_back, insert_ignoring_conflict, read_back,
      insert_on_conflict_do_nothing, select_by_unique_keys, emit, modify,
      on_session, gets, bind, ret. cbn.
    rewrite existsb_find, Hfind. cbn. rewrite Hfind, <- app_assoc.
    reflexivity.
  - destruct (with_defaults_row
                (if fr_id_set flow_run then Some (fr_id flow_run) else None)
                (fr_created flow_run) (fr_flow_id flow_run)
                (fr_idempotency_key flow_run) s)
      as (new & s' & Hd & Hflow & Hk & _ & Ht & _).
    exists new, s'. split; [exact Hd |].
    unfold insert_then_read_back, insert_ignoring_conflict, read_back,
      insert_on_conflict_do_nothing, select_by_unique_keys, emit, modify,
      on_session, gets, bind, ret, raise. cbn.
    rewrite existsb_find, Hfind. cbn. rewrite Hd.
    destruct (violates_primary_key new (flow_run_table s)); cbn.
    + reflexivity.
    + rewrite (find_app_new _ _ new Hfind).
      * rewrite <- app_assoc. reflexivity.
      * unfold same_unique_keys. rewrite Hflow, Hk, N.eqb_refl.
        exact (sql_eq_key_refl _ Hkey).
Qed.

(** What a completed insert-then-read-back has done. *)
Lemma insert_then_read_back_ok (st st1 : St Rule) (flow_run : FlowRun)
  (model : FlowRunRow) :
  truthy_str (fr_idempotency_key flow_run) = true ->
  insert_then_read_back flow_run st = (Ok model, st1) ->
  trace st1 = trace st ++ both /\
  find (same_unique_keys (fr_flow_id flow_run) (fr_idempotency_key flow_run))
       (flow_run_table (session st1)) = Some model /\
  flow_run_state_table (session st1) = flow_run_state_table (session st) /\
  (flow_run_table (session st1) = flow_run_table (session st) \/
   flow_run_table (session st1) = flow_run_table (session st) ++ [model] /\
   row_state_id model = None /\
   find (same_unique_keys (fr_flow_id flow_run)
                          (fr_idempotency_key flow_run))
        (flow_run_table (session st)) = None).
Proof.
  intros Hkey Hrun.
  pose proof (insert_then_read_back_cases st flow_run Hkey) as Hc.
  destruct (find _ (flow_run_table (session st))) as [existing |] eqn:Hfind.
  - rewrite Hrun in Hc. inversion Hc; subst. cbn.
    repeat split; try assumption. left. reflexivity.
  - destruct Hc as (new & s' & Hd & Hc).
    destruct (with_defaults_row
                (if fr_id_set flow_run then Some (fr_id flow_run) else None)
                (fr_created flow_run) (fr_flow_id flow_run)
                (fr_idempotency_key flow_run) (session st))
      as (new' & s'' & Hd' & Hflow & Hk & Hptr & Ht & Hs & _).
    rewrite Hd in Hd'. inversion Hd'; subst new' s''. clear Hd'.
    rewrite Hrun in Hc.
    destruct (violates_primary_key new (flow_run_table (session st)));
      [discriminate Hc |].
    inversion Hc; subst. cbn. repeat split.
    + apply find_app_new; [exact Hfind |].
      unfold same_unique_keys. rewrite Hflow, Hk, N.eqb_refl.
      exact (sql_eq_key_refl _ Hkey).
    + exact Hs.
    + right. repeat split; assumption.
Qed.

(** The row read back is the one a load by its identifier, such as the
    engine's, returns. *)
Lemma insert_then_read_back_target (st st1 : St Rule) (flow_run : FlowRun)
  (model : FlowRunRow) :
  truthy_str (fr_idempotency_key flow_run) = true ->
  unique_ids (session st) ->
  insert_then_read_back flow_run st = (Ok model, st1) ->
  unique_ids (session st1) /\
  find (has_id (row_id model)) (flow_run_table (session st1)) = Some model.
Proof.
  intros Hkey Hnd Hrun.
  destruct (insert_then_read_back_ok st st1 flow_run model Hkey Hrun)
    as (_ & Hfind & _).
  apply find_some in Hfind as [Hin _].
  assert (Hnd1 : unique_ids (session st1)).
  { pose proof (insert_then_read_back_cases st flow_run Hkey) as Hc.
    destruct (find _ (flow_run_table (session st))) as [existing |].
    - rewrite Hrun in Hc. inversion Hc; subst. exact Hnd.
    - destruct Hc as (new & s' & Hd & Hc). rewrite Hrun in Hc.
      destruct (violates_primary_key new (flow_run_table (session st)))
        eqn:Hpk; [discriminate Hc |].
      inversion Hc; subst. unfold unique_ids. cbn.
      exact (insert_keeps_unique_ids _ _ Hpk Hnd). }
  split; [exact Hnd1 | exact (find_by_own_id _ _ Hnd1 Hin)].
Qed.

End IdempotentInsert.

(** ** [create_flow_run] *)

Section CreateFacts.

Context {C : Collaborators}.

Lemma create_flow_run_with_key (st : St Rule) (flow_run : FlowRun) :
  truthy_str (fr_idempotency_key flow_run) = true ->
  create_flow_run flow_run st =
  (model <- insert_then_read_back flow_run ;;
   finish_create (now_of st) flow_run model)%py (after_now st).
Proof.
  intros Hkey. unfold create_flow_run, after_now, now_of.
  rewrite Hkey. destruct st as [s tr]. reflexivity.
Qed.

Lemma create_flow_run_without_key (st : St Rule) (flow_run : FlowRun) :
  truthy_str (fr_idempotency_key flow_run) = false ->
  create_flow_run flow_run st =
  (model <- add_and_flush flow_run ;;
   finish_create (now_of st) flow_run model)%py (after_now st).
Proof.
  intros Hkey. unfold create_flow_run, after_now, now_of.
  rewrite Hkey. destruct st as [s tr]. reflexivity.
Qed.

(** Lines 85-92 call the engine once, forced, on the row at hand when the
    guard holds, and do nothing at all when it does not. *)
Lemma finish_create_calls (now : DateTime) (flow_run : FlowRun)
  (model : FlowRunRow) (st : St Rule) :
  engine_calls (trace (snd (finish_create now flow_run model st))) =
  engine_calls (trace st)
  ++ (if sets_initial_state model now flow_run
      then [(row_id model, fr_state flow_run, true)] else []) /\
  (sets_initial_state model now flow_run = false ->
   finish_create now flow_run model st = (Ok model, st)) /\
  (forall returned st2,
     finish_create now flow_run model st = (Ok returned, st2) ->
     returned = model).
Proof.
  unfold finish_create.
  destruct (sets_initial_state model now flow_run).
  - pose proof (set_flow_run_state_calls st (row_id model)
                  (fr_state flow_run) true) as Hcalls.
    unfold bind, ret.
    destruct (set_flow_run_state (row_id model) (fr_state flow_run) true st)
      as [[result | e] st2]; cbn [snd] in Hcalls |- *.
    + split; [exact Hcalls |]. split; [intros H; discriminate H |].
      intros returned st3 H. inversion H. reflexivity.
    + split; [exact Hcalls |]. split; [intros H; discriminate H |].
      intros returned st3 H. discriminate H.
  - cbn. rewrite app_nil_r. split; [reflexivity |].
    split; [reflexivity |]. intros returned st2 H. inversion H. reflexivity.
Qed.

End CreateFacts.





(** The plain insert of lines 45-57 consults nothing but the storage's
    own constraints. *)
Lemma add_and_flush_cases {Rule : Type} (st : St Rule) (flow_run : FlowRun) :
  exists new s',
    with_defaults (Some (fr_id flow_run)) (fr_created flow_run)
      (fr_flow_id flow_run) (fr_idempotency_key flow_run) (session st)
    = (Ok new, s') /\
    add_and_flush flow_run st =
    if violates_primary_key new (flow_run_table (session st))
       || conflicts_on_unique_keys new (flow_run_table (session st))
    then (Raise IntegrityError, mkSt s' (trace st ++ [SessionAddFlush]))
    else (Ok new,
          mkSt (set_flow_run_table (flow_run_table (session st) ++ [new]) s')
               (trace st ++ [SessionAddFlush])).
Proof.
  destruct (with_defaults_row (Some (fr_id flow_run)) (fr_created flow_run)
              (fr_flow_id flow_run) (fr_idempotency_key flow_run) (session st))
    as (new & s' & Hd & _ & _ & _ & Ht & _).
  exists new, s'. split; [exact Hd |]. destruct st as [s tr].
  unfold add_and_flush, insert_row, emit, modify, on_session, gets, bind,
    ret, raise. cbn in *. rewrite Hd. cbn. rewrite Ht.
  destruct (violates_primary_key new (flow_run_table s)
            || conflicts_on_unique_keys new (flow_run_table s)); reflexivity.
Qed.




(** ** Interleaved calls *)

Lemma find_filter_some {A} (f : A -> bool) (l : list A) (x : A) :
  find f l = Some x -> exists rest, filter f l = x :: rest.
Proof.
  induction l as [| y l IH]; simpl; [intros H; discriminate H |].
  destruct (f y).
  - intros H. inversion H; subst. eexists. reflexivity.
  - exact IH.
Qed.

Lemma find_filter_none {A} (f : A -> bool) (l : list A) :
  find f l = None -> filter f l = [].
Proof.
  induction l as [| y l IH]; simpl; [reflexivity |].
  destruct (f y); [intros H; discriminate H | exact IH].
Qed.

(** The rows of a pair depend on the identities of the table only. *)
Lemma pair_identities_of_run_identities (flow_id : UUID)
  (key : option string) (s s' : Session) :
  run_identities s' = run_identities s ->
  pair_identities flow_id key s' = pair_identities flow_id key s.
Proof.
  unfold run_identities, pair_identities. intros H.
  set (same_id := fun k : UUID * DateTime * UUID * option string =>
         N.eqb (snd (fst k)) flow_id && sql_eq_key (snd k) key).
  assert (Hswap : forall t,
            map identity_of (filter (same_unique_keys flow_id key) t) =
            filter same_id (map identity_of t)).
  { intros t. rewrite filter_map_swap. reflexivity. }
  rewrite !Hswap, H. reflexivity.
Qed.

Section Interleaving.

Context {C : Collaborators}.
Hypothesis HC : collaborators_keep run_identities C.

Variables (flow_id : UUID) (key : option string).
Hypothesis Hkey : truthy_str key = true.

Local Abbreviation K st := (pair_identities flow_id key (session st)).

(** One step of a call on the pair either leaves the pair's rows as they
    are or creates the pair's first row; the call stays consistent. *)
Lemma call_step_pair (flow_run : FlowRun) (c c' : Call) (st st' : St Rule) :
  fr_flow_id flow_run = flow_id ->
  fr_idempotency_key flow_run = key ->
  List.length (K st) <= 1 ->
  call_consistent flow_run c (K st) ->
  call_step flow_run c st = (c', st') ->
  (K st' = K st \/ K st = [] /\ exists k, K st' = [k]) /\
  call_consistent flow_run c' (K st').
Proof.
  intros Hflow Hk Hlen Hc Hstep. subst flow_id key.
  destruct c as [| now | now | now model | now model assigned | e];
    cbn [call_step] in Hstep.
  - (* line 42 *)
    destruct st as [s tr]. inversion Hstep; subst. cbn.
    split; [left; reflexivity | exact I].
  - (* the insert *)
    rewrite Hkey in Hstep. cbn [negb] in Hstep.
    unfold advance, insert_ignoring_conflict, insert_on_conflict_do_nothing,
      emit, modify, on_session, gets, bind, ret, raise in Hstep.
    destruct st as [s tr]. cbn in Hstep.
    rewrite existsb_find in Hstep.
    unfold pair_identities in *. cbn [session] in *.
    destruct (find (same_unique_keys (fr_flow_id flow_run)
                                     (fr_idempotency_key flow_run))
                   (flow_run_table s))
      as [existing |] eqn:Hfind.
    + cbn in Hstep. inversion Hstep; subst. cbn.
      split; [left; reflexivity |].
      destruct (find_filter_some _ _ _ Hfind) as [rest Hrest].
      rewrite Hrest in *. cbn in Hlen |- *.
      destruct rest; [eexists; reflexivity | cbn in Hlen; lia].
    + cbn in Hstep.
      destruct (with_defaults_row
                  (if fr_id_set flow_run then Some (fr_id flow_run) else None)
                  (fr_created flow_run) (fr_flow_id flow_run)
                  (fr_idempotency_key flow_run) s)
        as (new & s' & Hd & Hf & Hkk & _ & Ht & _).
      rewrite Hd in Hstep.
      destruct (violates_primary_key new (flow_run_table s)).
      * inversion Hstep; subst. cbn. rewrite Ht.
        split; [left; reflexivity | exact I].
      * cbn in Hstep. inversion Hstep; subst. cbn.
        rewrite filter_app, (find_filter_none _ _ Hfind). cbn.
        assert (Hnew : same_unique_keys (fr_flow_id flow_run)
                         (fr_idempotency_key flow_run) new = true).
        { unfold same_unique_keys. rewrite Hf, Hkk, N.eqb_refl.
          exact (sql_eq_key_refl _ Hkey). }
        rewrite Hnew. cbn.
        split; [right; split; [reflexivity | eexists; reflexivity] |].
        eexists; reflexivity.
  - (* the read-back *)
    unfold advance, read_back, select_by_unique_keys, emit, modify,
      on_session, gets, bind, ret, raise in Hstep.
    destruct st as [s tr]. cbn in Hstep.
    unfold pair_identities in *. cbn [session] in *.
    destruct (find (same_unique_keys (fr_flow_id flow_run)
                                     (fr_idempotency_key flow_run))
                   (flow_run_table s))
      as [model |] eqn:Hfind; inversion Hstep; subst; cbn.
    + split; [left; reflexivity |].
      destruct (find_filter_some _ _ _ Hfind) as [rest Hrest].
      rewrite Hrest in *. cbn in Hlen |- *.
      destruct rest; [reflexivity | cbn in Hlen; lia].
    + split; [left; reflexivity | exact I].
  - (* the guard and the engine call *)
    unfold advance, finish_create in Hstep. cbn in Hc.
    destruct (sets_initial_state model now flow_run) eqn:Hguard.
    + pose proof (set_flow_run_state_keeps run_identities HC st
                    (row_id model) (fr_state flow_run) true) as Hkeep.
      unfold bind, ret in Hstep.
      destruct (set_flow_run_state (row_id model) (fr_state flow_run) true st)
        as [[result | e] st2]; inversion Hstep; subst;
        cbn [snd] in Hkeep;
        rewrite (pair_identities_of_run_identities _ _ _ _ Hkeep).
      * split; [left; reflexivity |]. cbn.
        split; [exact Hc | rewrite Hguard; reflexivity].
      * split; [left; reflexivity | exact I].
    + inversion Hstep; subst.
      split; [left; reflexivity |]. cbn.
      split; [exact Hc | rewrite Hguard; reflexivity].
  - inversion Hstep; subst. split; [left; reflexivity | exact Hc].
  - inversion Hstep; subst. split; [left; reflexivity | exact Hc].
Qed.

(** A call that is consistent with no row at all has not passed its
    insert, so it is consistent with any rows. *)
Lemma call_consistent_from_nil (flow_run : FlowRun) (c : Call)
  (K' : list (UUID * DateTime * UUID * option string)) :
  call_consistent flow_run c [] -> call_consistent flow_run c K'.
Proof.
  destruct c; cbn; try (intros; exact I).
  - intros [k H]. discriminate H.
  - intros H. discriminate H.
  - intros [H _]. discriminate H.
Qed.

(** Every schedule keeps the pair at one row at most and both calls
    consistent with it. *)
Lemma run_schedule_consistent (first second : FlowRun)
  (schedule : list bool) (a b a' b' : Call) (st st' : St Rule) :
  fr_flow_id first = flow_id -> fr_idempotency_key first = key ->
  fr_flow_id second = flow_id -> fr_idempotency_key second = key ->
  List.length (K st) <= 1 ->
  call_consistent first a (K st) ->
  call_consistent second b (K st) ->
  run_schedule first second schedule a b st = (a', b', st') ->
  List.length (K st') <= 1 /\
  call_consistent first a' (K st') /\
  call_consistent second b' (K st').
Proof.
  intros Hf1 Hk1 Hf2 Hk2. revert a b st.
  induction schedule as [| turn rest IH]; intros a b st Hlen Ha Hb Hrun.
  - cbn in Hrun. inversion Hrun; subst. repeat split; assumption.
  - cbn [run_schedule] in Hrun. destruct turn.
    + destruct (call_step first a st) as [a1 st1] eqn:Hstep.
      destruct (call_step_pair first a a1 st st1 Hf1 Hk1 Hlen Ha Hstep)
        as [[Hsame | [Hnil [k Hone]]] Ha1].
      * apply (IH a1 b st1); [rewrite Hsame; exact Hlen | exact Ha1
                              | rewrite Hsame; exact Hb | exact Hrun].
      * apply (IH a1 b st1); [rewrite Hone; cbn; lia | exact Ha1 | | exact Hrun].
        apply call_consistent_from_nil. rewrite <- Hnil. exact Hb.
    + destruct (call_step second b st) as [b1 st1] eqn:Hstep.
      destruct (call_step_pair second b b1 st st1 Hf2 Hk2 Hlen Hb Hstep)
        as [[Hsame | [Hnil [k Hone]]] Hb1].
      * apply (IH a b1 st1); [rewrite Hsame; exact Hlen
                              | rewrite Hsame; exact Ha | exact Hb1 | exact Hrun].
      * apply (IH a b1 st1); [rewrite Hone; cbn; lia | | exact Hb1 | exact Hrun].
        apply call_consistent_from_nil. rewrite <- Hnil. exact Ha.
Qed.

End Interleaving.

(** Run alone, the step machine is [create_flow_run]. *)
Lemma run_alone_is_create_flow_run {C : Collaborators} (flow_run : FlowRun)
  (st : St Rule) :
  run_alone flow_run st =
  match create_flow_run flow_run st with
  | (Ok model, st') =>
      (Returned (now_of st) model
                (sets_initial_state model (now_of st) flow_run), st')
  | (Raise e, st') => (Faulted e, st')
  end.
Proof.
  unfold run_alone.
  assert (H0 : call_step flow_run NotStarted st
               = (Inserting (now_of st), after_now st)).
  { destruct st as [s tr]. reflexivity. }
  rewrite H0. clear H0. cbn [call_step].
  destruct (truthy_str (fr_idempotency_key flow_run)) eqn:Hkey; cbn [negb].
  - rewrite (create_flow_run_with_key st flow_run Hkey).
    unfold insert_then_read_back, advance, bind.
    destruct (insert_ignoring_conflict flow_run (after_now st))
      as [[[] | e] st1]; cbn [call_step]; [| reflexivity].
    unfold advance.
    destruct (read_back flow_run st1) as [[model | e] st2];
      cbn [call_step]; [| reflexivity].
    unfold advance.
    pose proof (finish_create_calls (now_of st) flow_run model st2)
      as (_ & _ & Hret).
    destruct (finish_create (now_of st) flow_run model st2)
      as [[returned | e] st3]; [| reflexivity].
    rewrite (Hret returned st3 eq_refl). reflexivity.
  - rewrite (create_flow_run_without_key st flow_run Hkey).
    unfold advance, bind.
    destruct (add_and_flush flow_run (after_now st)) as [[model | e] st1];
      cbn [call_step]; [| reflexivity].
    unfold advance.
    pose proof (finish_create_calls (now_of st) flow_run model st1)
      as (_ & _ & Hret).
    destruct (finish_create (now_of st) flow_run model st1)
      as [[returned | e] st3]; cbn [call_step]; [| reflexivity].
    rewrite (Hret returned st3 eq_refl). reflexivity.
Qed.

(** The terminal step of the spec and the sample rules move state
    pointers only. *)
Lemma advance_pointer_identity (run_id state_id : UUID) (r : FlowRunRow) :
  identity_of (advance_pointer run_id state_id r) = identity_of r.
Proof. unfold advance_pointer. destruct (has_id run_id r); reflexivity. Qed.

Lemma terminal_step_keeps_runs : keeps run_identities terminal_step.
Proof.
  intros ctx s. unfold terminal_step, run_identities.
  destruct (ctx_proposed_state ctx) as [p |]; [| reflexivity].
  destruct (decided_otherwise (ctx_response_status ctx)); [reflexivity |].
  cbn. rewrite map_map. apply map_ext. intros r.
  apply advance_pointer_identity.
Qed.

Lemma sample_collaborators_keep_runs :
  collaborators_keep run_identities sample_collaborators.
Proof.
  split; [| split].
  - intros cm ctx s. cbn. unfold sample_aenter.
    destruct cm as [[] [[] |] ? | ?]; reflexivity.
  - intros cm pending ctx s. cbn. unfold sample_aexit.
    destruct cm as [? ? ? | []]; reflexivity.
  - exact terminal_step_keeps_runs.
Qed.

Lemma sample_clock_monotone : monotone sample_clock.
Proof. intros n m H. unfold sample_clock. lia. Qed.




(** ** [DataDocument] *)

Lemma nth_error_app_last {A} (l : list A) (x : A) :
  nth_error (l ++ [x]) (List.length l) = Some x.
Proof. induction l as [| y l IH]; simpl; [reflexivity | exact IH]. Qed.

Lemma replace_nth_app_last {A} (l : list A) (x y : A) :
  replace_nth (List.length l) x (l ++ [y]) = l ++ [x].
Proof.
  induction l as [| z l IH]; simpl; [reflexivity | now rewrite IH].
Qed.

Lemma nth_error_replace_nth {A} (l : list A) (n : nat) (x y : A) :
  nth_error l n = Some y -> nth_error (replace_nth n x l) n = Some x.
Proof.
  revert n. induction l as [| z l IH]; intros [| n] H; simpl in *;
    try discriminate H; [reflexivity | exact (IH n H)].
Qed.

Section DataDocumentFacts.

Variables D W : Type.
Variable subclasses : list (DocumentClass D W).

(** A read of an instance whose cache is set returns the cached data and
    touches nothing: no dispatch, no decode. *)
Lemma read_cached (self : Ref) (i : Interp D W) (inst : DataDocument D)
  (data : D) :
  nth_error (heap i) self = Some inst ->
  _data_cache inst = Some data ->
  read subclasses self i = (Ok data, i).
Proof.
  intros Hself Hcache. unfold read, deref, bind, ret.
  rewrite Hself, Hcache. reflexivity.
Qed.

Lemma read_repeatedly_cached (self : Ref) (i : Interp D W)
  (inst : DataDocument D) (data : D) (n : nat) :
  nth_error (heap i) self = Some inst ->
  _data_cache inst = Some data ->
  read_repeatedly subclasses self n i = (Ok (repeat data n), i).
Proof.
  intros Hself Hcache. induction n as [| n IH]; simpl; [reflexivity |].
  unfold bind, ret. rewrite (read_cached self i inst data Hself Hcache), IH.
  reflexivity.
Qed.

(** A document that [create] returns has its cache set to the data it was
    created from. *)
Lemma create_caches (cls : DocumentClass D W) (data : D)
  (enc : option string) (i i' : Interp D W) (doc : Ref) :
  create cls data enc i = (Ok doc, i') ->
  exists inst,
    nth_error (heap i') doc = Some inst /\ _data_cache inst = Some data /\
    decode_log i' = decode_log i.
Proof.
  unfold create.
  destruct (match enc with
            | Some e => Some e
            | None => cls_default_encoding cls
            end) as [e |]; [| intros H; discriminate H].
  destruct (contains e (supported_encodings cls)); [| intros H; discriminate H].
  unfold _cache_data, on_world, alloc, deref, modify, ret, bind.
  destruct (encode cls data (world i)) as [[b | err] w'];
    [| intros H; discriminate H].
  cbn. rewrite nth_error_app_last. cbn. intros H. inversion H; subst.
  cbn. rewrite replace_nth_app_last, nth_error_app_last.
  eexists. repeat split.
Qed.

(** A read that returns leaves the cache set to what it returned, after
    one decode at most. *)
Lemma read_caches (self : Ref) (i i1 : Interp D W) (data : D) :
  read subclasses self i = (Ok data, i1) ->
  (exists inst,
     nth_error (heap i1) self = Some inst /\ _data_cache inst = Some data) /\
  List.length (decode_log i1) <= S (List.length (decode_log i)).
Proof.
  unfold read, deref, bind.
  destruct (nth_error (heap i) self) as [inst |] eqn:Hself;
    [| intros H; discriminate H].
  destruct (_data_cache inst) as [cached |] eqn:Hcache.
  - intros H. inversion H; subst. split; [| lia].
    exists inst. split; assumption.
  - unfold get_datadoc_subclass.
    destruct (find _ _) as [[encodings cls] |]; [| intros H; discriminate H].
    unfold _cache_data, ret, log_decode, modify, on_world, deref, bind. cbn.
    destruct (decode cls (blob inst) (world i)) as [[d | err] w'];
      [| intros H; discriminate H].
    cbn. rewrite Hself. cbn. intros H. inversion H; subst. cbn.
    split.
    + eexists. split; [exact (nth_error_replace_nth _ _ _ _ Hself) |].
      reflexivity.
    + rewrite length_app. cbn. lia.
Qed.

End DataDocumentFacts.

(** C10, as the code has it.  A document built by [create] returns the
    data it was built from on every later read, and these reads change
    nothing, so no [decode] is ever invoked for it.  For any document, once
    a read has returned, every further read returns the same cached value
    and changes nothing; the read that returned has dispatched to [decode]
    once at most. *)
Theorem read_after_create_and_idempotent (D W : Type)
  (subclasses : list (DocumentClass D W)) (i : Interp D W) :
  (forall cls data enc doc i',
     create cls data enc i = (Ok doc, i') ->
     decode_log i' = decode_log i /\
     forall n, read_repeatedly subclasses doc n i' = (Ok (repeat data n), i'))
  /\
  (forall self data i1,
     read subclasses self i = (Ok data, i1) ->
     List.length (decode_log i1) <= S (List.length (decode_log i)) /\
     forall n, read_repeatedly subclasses self n i1 = (Ok (repeat data n), i1)).
Proof.
  split.
  - intros cls data enc doc i' Hcreate.
    destruct (create_caches D W cls data enc i i' doc Hcreate)
      as (inst & Hself & Hcache & Hlog).
    split; [exact Hlog |]. intros n.
    exact (read_repeatedly_cached D W subclasses doc i' inst data n
             Hself Hcache).
  - intros self data i1 Hread.
    destruct (read_caches D W subclasses self i i1 data Hread)
      as ((inst & Hself & Hcache) & Hlog).
    split; [exact Hlog |]. intros n.
    exact (read_repeatedly_cached D W subclasses self i1 inst data n
             Hself Hcache).
Qed.

Lemma read_after_create_and_idempotent_witness :
  let i0 : Interp (string * bytes) FileSystem := mkInterp [] [] [] in
  let data := ("/tmp/a"%string, [Byte.x01]) in
  let i' := snd (create FileSystemDataDocument data (Some "file"%string) i0) in
  create FileSystemDataDocument data (Some "file"%string) i0 = (Ok 0, i') /\
  read_repeatedly [FileSystemDataDocument] 0 3 i' =
    (Ok [data; data; data], i') /\
  decode_log i' = [].
Proof.
  cbv zeta. split; [reflexivity |].
  destruct (proj1 (read_after_create_and_idempotent
                     (string * bytes) FileSystem [FileSystemDataDocument]
                     (mkInterp [] [] []))
              FileSystemDataDocument ("/tmp/a"%string, [Byte.x01])
              (Some "file"%string) 0 _ eq_refl) as [Hlog Hreads].
  split; [exact (Hreads 3) | exact Hlog].
Defined.

(** A document that comes without a cache, as one parsed from storage
    does: the first read decodes, once, and the later ones do not. *)
Example decode_runs_once :
  let stored : Interp (string * bytes) FileSystem :=
    mkInterp [mkDataDocument "file" (str_encode "/tmp/a") None]
             [("/tmp/a"%string, [Byte.x01])] [] in
  let r := read_repeatedly [FileSystemDataDocument] 0 3 stored in
  fst r = Ok (repeat ("/tmp/a"%string, [Byte.x01]) 3) /\
  decode_log (snd r) = [("FileSystemDataDocument"%string, str_encode "/tmp/a")].
Proof. cbv zeta. split; reflexivity. Qed.

(** The base class supports no encoding, so [create] on it always raises. *)
Example base_class_supports_no_encoding (D W : Type) (data : D)
  (enc : option string) (i : Interp D W) :
  create DataDocument_base data enc i =
  (Raise (ValueError_unsupported_encoding "DataDocument" enc), i).
Proof. destruct enc; reflexivity. Qed.

(** C10, as stated for any document, fails: a read whose [decode] raises
    caches nothing, so a document whose file is gone answers no read and
    has [decode] invoked by each one. *)
Lemma failed_read_decodes_again : ~ any_document_decodes_at_most_once.
Proof.
  intros H.
  destruct (H (string * bytes)%type FileSystem [FileSystemDataDocument] 0
              orphaned_document) as [_ Hlog].
  vm_compute in Hlog. lia.
Qed.

(** * Further properties *)

(** ** [get_datadoc_subclass] and [create_datadoc] *)

Section Dispatch.

Variables D W : Type.

Local Abbreviation Dict := (list (list string * DocumentClass D W)).

Lemma dict_set_in (k k' : list string) (v v' : DocumentClass D W) (d : Dict) :
  In (k', v') (dict_set k v d) -> (k' = k /\ v' = v) \/ In (k', v') d.
Proof.
  induction d as [| [k0 v0] d IH]; simpl.
  - intros [H | []]. inversion H. left. split; reflexivity.
  - destruct (list_eq_dec string_dec k k0) as [E | _].
    + intros [H | H].
      * inversion H; subst. left. split; reflexivity.
      * right. right. exact H.
    + intros [H | H].
      * right. left. exact H.
      * destruct (IH H) as [Hl | Hr]; [left; exact Hl | right; right; exact Hr].
Qed.

Lemma dict_set_has_key (k : list string) (v : DocumentClass D W) (d : Dict) :
  exists v', In (k, v') (dict_set k v d).
Proof.
  induction d as [| [k0 v0] d IH]; simpl.
  - exists v. left. reflexivity.
  - destruct (list_eq_dec string_dec k k0) as [E | _].
    + subst. exists v. left. reflexivity.
    + destruct IH as [v' H]. exists v'. right. exact H.
Qed.

Lemma dict_set_keeps_keys (k k0 : list string) (v v0 : DocumentClass D W)
  (d : Dict) :
  In (k0, v0) d -> exists v', In (k0, v') (dict_set k v d).
Proof.
  induction d as [| [k1 v1] d IH]; simpl; [intros [] |].
  destruct (list_eq_dec string_dec k k1) as [E | _].
  - intros [H | H].
    + inversion H; subst. exists v. left. reflexivity.
    + exists v0. right. exact H.
  - intros [H | H].
    + exists v0. left. exact H.
    + destruct (IH H) as [v' H']. exists v'. right. exact H'.
Qed.

(** The table built by the dict comprehension of lines 41-44: every entry
    is a subclass under its own encodings, and the encodings of every
    subclass are a key. *)
Lemma encoding_table (subclasses : list (DocumentClass D W)) (d0 : Dict) :
  let d := fold_left (fun d subclass =>
                        dict_set (supported_encodings subclass) subclass d)
                     subclasses d0 in
  (forall k v, In (k, v) d ->
     In (k, v) d0 \/ (k = supported_encodings v /\ In v subclasses)) /\
  (forall c, In c subclasses -> exists v, In (supported_encodings c, v) d) /\
  (forall k v, In (k, v) d0 -> exists v', In (k, v') d).
Proof.
  revert d0. induction subclasses as [| c cs IH]; intros d0; cbn.
  - split; [intros k v H; left; exact H |].
    split; [intros c [] | intros k v H; exists v; exact H].
  - destruct (IH (dict_set (supported_encodings c) c d0)) as (H1 & H2 & H3).
    split; [| split].
    + intros k v H. destruct (H1 k v H) as [Hd | [Hk Hin]].
      * destruct (dict_set_in _ _ _ _ _ Hd) as [[-> ->] | Hd0].
        -- right. split; [reflexivity | left; reflexivity].
        -- left. exact Hd0.
      * right. split; [exact Hk | right; exact Hin].
    + intros c' [<- | Hin].
      * destruct (dict_set_has_key (supported_encodings c) c d0) as [v Hv].
        exact (H3 _ _ Hv).
      * exact (H2 c' Hin).
    + intros k v H.
      destruct (dict_set_keeps_keys (supported_encodings c) k c v d0 H)
        as [v' Hv'].
      exact (H3 _ _ Hv').
Qed.

End Dispatch.

(** What the dispatch of lines 40-50 returns or raises. *)
Lemma dispatch_outcome (D W S : Type)
  (subclasses : list (DocumentClass D W)) (encoding : string) (s : S) :
  match get_datadoc_subclass subclasses encoding s with
  | (Ok cls, s') =>
      s' = s /\ In cls subclasses /\ supports encoding cls = true
  | (Raise e, s') =>
      s' = s /\ e = ValueError_unknown_encoding (Some encoding) /\
      forall cls, In cls subclasses -> supports encoding cls = false
  end.
Proof.
  unfold get_datadoc_subclass.
  destruct (encoding_table D W subclasses []) as (H1 & H2 & _).
  cbv zeta in H1, H2.
  destruct (find _ _) as [[k cls] |] eqn:Hfind; cbn.
  - apply find_some in Hfind as [Hin Hk]. cbn in Hk.
    destruct (H1 k cls Hin) as [[] | [-> Hsub]].
    split; [reflexivity |]. split; [exact Hsub | exact Hk].
  - split; [reflexivity |]. split; [reflexivity |].
    intros cls Hin. destruct (H2 cls Hin) as [v Hv].
    exact (find_none _ _ Hfind _ Hv).
Qed.

(** X1.  [get_datadoc_subclass] changes nothing; when it returns, the
    class is one of the subclasses and supports the encoding; it raises,
    with the unknown-encoding [ValueError], exactly when no subclass
    supports the encoding. *)
Theorem get_datadoc_subclass_sound_and_complete (D W S : Type)
  (subclasses : list (DocumentClass D W)) (encoding : string) (s : S) :
  match get_datadoc_subclass subclasses encoding s with
  | (Ok cls, s') =>
      s' = s /\ In cls subclasses /\ supports encoding cls = true
  | (Raise e, s') =>
      s' = s /\ e = ValueError_unknown_encoding (Some encoding) /\
      forall cls, In cls subclasses -> supports encoding cls = false
  end.
Proof.
  exact (dispatch_outcome D W S subclasses
           encoding s).
Qed.

Lemma sole_supporter_dispatch (D W S : Type)
  (subclasses : list (DocumentClass D W)) (cls : DocumentClass D W)
  (encoding : string) (s : S) :
  In cls subclasses ->
  supports encoding cls = true ->
  (forall other, In other subclasses -> supports encoding other = true ->
                 other = cls) ->
  get_datadoc_subclass subclasses encoding s = (Ok cls, s).
Proof.
  intros Hin Hsup Hsole.
  pose proof (dispatch_outcome D W S subclasses encoding s) as H.
  destruct (get_datadoc_subclass subclasses encoding s) as [[found | e] s'].
  - destruct H as (-> & Hfound & Hs). rewrite (Hsole found Hfound Hs).
    reflexivity.
  - destruct H as (_ & _ & Hnone). rewrite (Hnone cls Hin) in Hsup.
    discriminate Hsup.
Qed.

(** X2.  When one subclass alone supports an encoding, the dispatch on
    that encoding returns this subclass, wherever it stands in the list. *)
Theorem get_datadoc_subclass_sole_supporter (D W S : Type)
  (subclasses : list (DocumentClass D W)) (cls : DocumentClass D W)
  (encoding : string) (s : S) :
  In cls subclasses ->
  supports encoding cls = true ->
  (forall other, In other subclasses -> supports encoding other = true ->
                 other = cls) ->
  get_datadoc_subclass subclasses encoding s = (Ok cls, s).
Proof.
  exact (sole_supporter_dispatch D W S subclasses cls
           encoding s).
Qed.

Lemma get_datadoc_subclass_sole_supporter_witness :
  In FileSystemDataDocument [FileSystemDataDocument] /\
  supports "file" FileSystemDataDocument = true /\
  get_datadoc_subclass [FileSystemDataDocument] "file" tt
  = (Ok FileSystemDataDocument, tt).
Proof.
  split; [left; reflexivity |]. split; [reflexivity |].
  apply (get_datadoc_subclass_sole_supporter (string * bytes) FileSystem unit
           [FileSystemDataDocument] FileSystemDataDocument "file" tt).
  - left. reflexivity.
  - reflexivity.
  - intros other [<- | []] _. reflexivity.
Defined.

(** What [create] does once the encoding has passed its check. *)
Lemma create_supported (D W : Type) (cls : DocumentClass D W) (data : D)
  (e : string) (i : Interp D W) :
  supports e cls = true ->
  create cls data (Some e) i =
  match encode cls data (world i) with
  | (Ok blob, w') =>
      (Ok (List.length (heap i)),
       mkInterp (heap i ++ [mkDataDocument e blob (Some data)]) w'
                (decode_log i))
  | (Raise err, w') => (Raise err, mkInterp (heap i) w' (decode_log i))
  end.
Proof.
  intros Hsup. unfold supports in Hsup. unfold create. rewrite Hsup.
  unfold _cache_data, on_world, alloc, deref, modify, ret, bind.
  destruct (encode cls data (world i)) as [[b | err] w']; [| reflexivity].
  cbn. rewrite nth_error_app_last. cbn. rewrite replace_nth_app_last.
  reflexivity.
Qed.

(** X3.  [create_datadoc] either finds no subclass for the encoding, and
    then raises the unknown-encoding [ValueError] with nothing changed, or
    encodes with a subclass that supports it, and then its outcome is the
    outcome of that [encode]: on success a new document with the encoding,
    the blob and the data in its cache, on failure the exception of
    [encode].  The unsupported-encoding check of [create] never fires. *)
Theorem create_datadoc_outcome (D W : Type)
  (subclasses : list (DocumentClass D W)) (e : string) (data : D)
  (i : Interp D W) :
  (exists cls,
     In cls subclasses /\ supports e cls = true /\
     create_datadoc subclasses e data i =
     match encode cls data (world i) with
     | (Ok blob, w') =>
         (Ok (List.length (heap i)),
          mkInterp (heap i ++ [mkDataDocument e blob (Some data)]) w'
                   (decode_log i))
     | (Raise err, w') => (Raise err, mkInterp (heap i) w' (decode_log i))
     end)
  \/
  ((forall cls, In cls subclasses -> supports e cls = false) /\
   create_datadoc subclasses e data i =
   (Raise (ValueError_unknown_encoding (Some e)), i)).
Proof.
  unfold create_datadoc, bind.
  pose proof (dispatch_outcome D W (Interp D W) subclasses e i) as H.
  destruct (get_datadoc_subclass subclasses e i) as [[cls | err] i'].
  - destruct H as (-> & Hin & Hsup). left. exists cls.
    split; [exact Hin |]. split; [exact Hsup |].
    exact (create_supported D W cls data e i Hsup).
  - destruct H as (-> & -> & Hnone). right. split; [exact Hnone | reflexivity].
Qed.

(** X4.  A document that [create_datadoc] returns answers every read with
    the data it was created from, without any [decode]. *)
Theorem read_after_create_datadoc (D W : Type)
  (subclasses : list (DocumentClass D W)) (e : string) (data : D)
  (i i' : Interp D W) (doc : Ref) (n : nat) :
  create_datadoc subclasses e data i = (Ok doc, i') ->
  read_repeatedly subclasses doc n i' = (Ok (repeat data n), i') /\
  decode_log i' = decode_log i.
Proof.
  unfold create_datadoc, bind. intros H.
  pose proof (dispatch_outcome D W (Interp D W) subclasses e i) as Hd.
  destruct (get_datadoc_subclass subclasses e i) as [[cls | err] i0];
    [| discriminate H].
  destruct Hd as (-> & _ & _).
  destruct (create_caches D W cls data (Some e) i i' doc H)
    as (inst & Hself & Hcache & Hlog).
  split; [| exact Hlog].
  exact (read_repeatedly_cached D W subclasses doc i' inst data n Hself Hcache).
Qed.

Lemma read_after_create_datadoc_witness :
  let i0 : Interp (string * bytes) FileSystem := mkInterp [] [] [] in
  let data := ("/tmp/a"%string, [Byte.x01]) in
  let i' := snd (create_datadoc [FileSystemDataDocument] "s3" data i0) in
  create_datadoc [FileSystemDataDocument] "s3" data i0 = (Ok 0, i') /\
  read_repeatedly [FileSystemDataDocument] 0 2 i' = (Ok [data; data], i') /\
  decode_log i' = [].
Proof.
  cbv zeta. split; [reflexivity |].
  exact (read_after_create_datadoc (string * bytes) FileSystem
           [FileSystemDataDocument] "s3" ("/tmp/a"%string, [Byte.x01])
           (mkInterp [] [] []) _ 0 2 eq_refl).
Defined.

(** ** [FileSystemDataDocument] *)

Lemma read_blob_after_write (path : string) (file_blob : bytes)
  (fs : FileSystem) :
  read_blob path ((path, file_blob) :: fs)
  = (Ok file_blob, (path, file_blob) :: fs).
Proof.
  unfold read_blob, gets, bind, ret. cbn. rewrite String.eqb_refl.
  reflexivity.
Qed.

Lemma decode_after_write (path : string) (file_blob : bytes)
  (fs : FileSystem) :
  utf8_valid (str_encode path) = true ->
  decode FileSystemDataDocument (str_encode path) ((path, file_blob) :: fs)
  = (Ok (path, file_blob), (path, file_blob) :: fs).
Proof.
  intros Hvalid.
  cbn -[read_blob utf8_valid str_encode string_of_list_byte].
  unfold bytes_decode, bind. rewrite Hvalid.
  cbn -[read_blob utf8_valid str_encode string_of_list_byte].
  unfold str_encode. rewrite string_of_list_byte_of_string.
  rewrite read_blob_after_write. reflexivity.
Qed.

(** X5.  What [FileSystemDataDocument.encode] produces, [decode] turns
    back into the same path and file contents; and what [decode] has read,
    [encode] turns back into the same blob. *)
Theorem filesystem_document_round_trip (path : string) (file_blob : bytes)
  (blob : bytes) (fs : FileSystem) :
  (utf8_valid (str_encode path) = true ->
   exists fs',
     encode FileSystemDataDocument (path, file_blob) fs
     = (Ok (str_encode path), fs') /\
     decode FileSystemDataDocument (str_encode path) fs'
     = (Ok (path, file_blob), fs')) /\
  (forall data fs',
     decode FileSystemDataDocument blob fs = (Ok data, fs') ->
     fs' = fs /\
     fst (encode FileSystemDataDocument data fs') = Ok blob).
Proof.
  split.
  - intros Hvalid. exists ((path, file_blob) :: fs). split; [reflexivity |].
    exact (decode_after_write path file_blob fs Hvalid).
  - intros data fs'. cbn. unfold bytes_decode, bind, ret, raise.
    destruct (utf8_valid blob); [| intros H; discriminate H].
    unfold read_blob, gets, bind, ret, raise.
    destruct (find _ fs) as [[p b] |]; [| intros H; discriminate H].
    intros H. inversion H; subst. split; [reflexivity |].
    cbn. unfold str_encode. rewrite list_byte_of_string_of_list_byte.
    reflexivity.
Qed.

Lemma filesystem_document_round_trip_witness :
  utf8_valid (str_encode "/tmp/a") = true /\
  decode FileSystemDataDocument (str_encode "/tmp/a")
         (snd (encode FileSystemDataDocument ("/tmp/a"%string, [Byte.x01]) []))
  = (Ok ("/tmp/a"%string, [Byte.x01]), [("/tmp/a"%string, [Byte.x01])]).
Proof.
  split; [reflexivity |].
  destruct (proj1 (filesystem_document_round_trip "/tmp/a" [Byte.x01] [] [])
              eq_refl) as (fs' & Henc & Hdec).
  inversion Henc; subst. exact Hdec.
Defined.

(** ** What a read leaves alone *)

Lemma length_replace_nth {A} (n : nat) (x : A) (l : list A) :
  List.length (replace_nth n x l) = List.length l.
Proof.
  revert n. induction l as [| y l IH]; intros [| n]; simpl;
    try reflexivity. now rewrite IH.
Qed.

Lemma nth_error_replace_nth_other {A} (n m : nat) (x : A) (l : list A) :
  m <> n -> nth_error (replace_nth n x l) m = nth_error l m.
Proof.
  revert n m. induction l as [| y l IH]; intros [| n] [| m] H; simpl;
    try reflexivity; [contradiction | apply IH; congruence].
Qed.

(** X6.  A read, whether it returns or raises, allocates nothing, leaves
    every other document exactly as it was, and keeps the encoding and the
    blob of the document it reads: only that document's cache can change. *)
Theorem read_touches_only_the_cache (D W : Type)
  (subclasses : list (DocumentClass D W)) (self : Ref) (i : Interp D W) :
  let i' := snd (read subclasses self i) in
  List.length (heap i') = List.length (heap i) /\
  (forall other, other <> self ->
     nth_error (heap i') other = nth_error (heap i) other) /\
  (forall inst, nth_error (heap i) self = Some inst ->
     exists inst', nth_error (heap i') self = Some inst' /\
                   encoding inst' = encoding inst /\ blob inst' = blob inst).
Proof.
  unfold read, deref, bind.
  destruct (nth_error (heap i) self) as [inst |] eqn:Hself; cbn;
    [| repeat split; intros; discriminate].
  destruct (_data_cache inst) as [cached |]; cbn.
  { split; [reflexivity |]. split; [reflexivity |].
    intros inst0 H. exists inst0. rewrite <- H. repeat split. exact Hself. }
  unfold get_datadoc_subclass.
  destruct (find _ _) as [[encodings cls] |]; cbn.
  2: { split; [reflexivity |]. split; [reflexivity |].
       intros inst0 H. exists inst0. rewrite <- H. repeat split. exact Hself. }
  unfold _cache_data, log_decode, modify, on_world, deref, bind, ret. cbn.
  destruct (decode cls (blob inst) (world i)) as [[d | err] w']; cbn.
  - rewrite Hself. cbn. split; [apply length_replace_nth |].
    split; [intros other Ho; apply nth_error_replace_nth_other; exact Ho |].
    intros inst0 H. inversion H; subst inst0.
    eexists. split; [exact (nth_error_replace_nth _ _ _ _ Hself) |].
    split; reflexivity.
  - split; [reflexivity |]. split; [reflexivity |].
    intros inst0 H. exists inst0. rewrite <- H. repeat split. exact Hself.
Qed.

(** X7.  A document whose cache is empty and whose encoding no subclass
    supports cannot be read: the read raises the unknown-encoding
    [ValueError], and no [decode] is attempted. *)
Theorem read_unknown_encoding (D W : Type)
  (subclasses : list (DocumentClass D W)) (self : Ref) (i : Interp D W)
  (inst : DataDocument D) :
  nth_error (heap i) self = Some inst ->
  _data_cache inst = None ->
  (forall cls, In cls subclasses -> supports (encoding inst) cls = false) ->
  read subclasses self i
  = (Raise (ValueError_unknown_encoding (Some (encoding inst))), i).
Proof.
  intros Hself Hcache Hnone. unfold read, deref, bind.
  rewrite Hself, Hcache.
  pose proof (dispatch_outcome D W (Interp D W) subclasses (encoding inst) i)
    as H.
  destruct (get_datadoc_subclass subclasses (encoding inst) i)
    as [[cls | e] i'].
  - destruct H as (_ & Hin & Hsup). rewrite (Hnone cls Hin) in Hsup.
    discriminate Hsup.
  - destruct H as (-> & -> & _). reflexivity.
Qed.

Lemma read_unknown_encoding_witness :
  let i : Interp (string * bytes) FileSystem :=
    mkInterp [mkDataDocument "orion" [Byte.x7b] None] [] [] in
  nth_error (heap i) 0 = Some (mkDataDocument "orion" [Byte.x7b] None) /\
  read [FileSystemDataDocument] 0 i
  = (Raise (ValueError_unknown_encoding (Some "orion"%string)), i).
Proof.
  cbv zeta. split; [reflexivity |].
  apply (read_unknown_encoding (string * bytes) FileSystem
           [FileSystemDataDocument] 0
           (mkInterp [mkDataDocument "orion" [Byte.x7b] None] [] [])
           (mkDataDocument "orion" [Byte.x7b] None) eq_refl eq_refl).
  intros cls [<- | []]. reflexivity.
Defined.

(** A read of a document without cache whose dispatch and [decode] both
    return: the decode is logged and its result cached and returned. *)
Lemma read_uncached (D W : Type) (subclasses : list (DocumentClass D W))
  (self : Ref) (i : Interp D W) (inst : DataDocument D)
  (cls : DocumentClass D W) (d : D) (w' : W) :
  nth_error (heap i) self = Some inst ->
  _data_cache inst = None ->
  get_datadoc_subclass subclasses (encoding inst) i = (Ok cls, i) ->
  decode cls (blob inst) (world i) = (Ok d, w') ->
  read subclasses self i
  = (Ok d,
     mkInterp (replace_nth self
                 (mkDataDocument (encoding inst) (blob inst) (Some d))
                 (heap i))
              w' (decode_log i ++ [(cls_name cls, blob inst)])).
Proof.
  intros Hself Hcache Hcls Hdec. unfold read, deref, bind.
  rewrite Hself, Hcache, Hcls.
  unfold _cache_data, log_decode, modify, on_world, deref, bind, ret.
  cbn [world heap decode_log]. rewrite Hdec. cbn [heap]. rewrite Hself.
  reflexivity.
Qed.

(** X8.  A file-system document survives storage: a second instance with
    the encoding and the blob of a created one, and no cache, reads back
    the path and the contents the first was created from, through exactly
    one [decode] of [FileSystemDataDocument]. *)
Theorem stored_document_reads_back
  (subclasses : list (DocumentClass (string * bytes) FileSystem))
  (path : string) (file_blob : bytes) (e : string)
  (i i1 : Interp (string * bytes) FileSystem) (doc : Ref) :
  In FileSystemDataDocument subclasses ->
  (forall other, In other subclasses -> supports e other = true ->
                 other = FileSystemDataDocument) ->
  utf8_valid (str_encode path) = true ->
  create FileSystemDataDocument (path, file_blob) (Some e) i = (Ok doc, i1) ->
  exists inst i2,
    nth_error (heap i1) doc = Some inst /\
    (twin <- alloc (mkDataDocument (encoding inst) (blob inst) None) ;;
     read subclasses twin)%py i1 = (Ok (path, file_blob), i2) /\
    decode_log i2
    = decode_log i1 ++ [("FileSystemDataDocument"%string, blob inst)].
Proof.
  intros Hin Hsole Hvalid Hcreate.
  assert (Hsup : supports e FileSystemDataDocument = true).
  { unfold create in Hcreate. unfold supports.
    destruct (contains e (supported_encodings FileSystemDataDocument));
      [reflexivity | discriminate Hcreate]. }
  rewrite (create_supported _ _ FileSystemDataDocument (path, file_blob) e i
             Hsup) in Hcreate.
  change (encode FileSystemDataDocument (path, file_blob) (world i))
    with (Ok (str_encode path), (path, file_blob) :: world i) in Hcreate.
  inversion Hcreate; subst doc i1. clear Hcreate.
  set (first := mkDataDocument e (str_encode path) (Some (path, file_blob))).
  set (twin := @mkDataDocument (string * bytes) e (str_encode path) None).
  set (i1 := mkInterp (heap i ++ [first]) ((path, file_blob) :: world i)
                      (decode_log i)).
  set (i1' := mkInterp (heap i1 ++ [twin]) (world i1) (decode_log i1)).
  exists first. eexists.
  split; [apply nth_error_app_last |].
  assert (Halloc : alloc twin i1 = (Ok (List.length (heap i1)), i1'))
    by reflexivity.
  change (mkDataDocument (encoding first) (blob first) None) with twin.
  rewrite (bind_ok _ _ _ _ _ Halloc).
  assert (Hself : nth_error (heap i1') (List.length (heap i1)) = Some twin)
    by apply nth_error_app_last.
  rewrite (read_uncached _ _ subclasses (List.length (heap i1)) i1' twin
             FileSystemDataDocument (path, file_blob)
             ((path, file_blob) :: world i) Hself eq_refl
             (sole_supporter_dispatch _ _ _ subclasses FileSystemDataDocument
                e i1' Hin Hsup Hsole)
             (decode_after_write path file_blob (world i) Hvalid)).
  split; reflexivity.
Qed.

Lemma stored_document_reads_back_witness :
  let i0 : Interp (string * bytes) FileSystem := mkInterp [] [] [] in
  let data := ("/tmp/a"%string, [Byte.x01]) in
  let i1 := snd (create FileSystemDataDocument data (Some "file"%string) i0) in
  utf8_valid (str_encode "/tmp/a") = true /\
  create FileSystemDataDocument data (Some "file"%string) i0 = (Ok 0, i1) /\
  fst ((twin <- alloc (mkDataDocument "file" (str_encode "/tmp/a") None) ;;
        read [FileSystemDataDocument] twin)%py i1) = Ok data.
Proof.
  cbv zeta. split; [reflexivity |]. split; [reflexivity |].
  destruct (stored_document_reads_back [FileSystemDataDocument]
              "/tmp/a" [Byte.x01] "file" (mkInterp [] [] [])
              (snd (create FileSystemDataDocument
                      ("/tmp/a"%string, [Byte.x01]) (Some "file"%string)
                      (mkInterp [] [] []))) 0)
    as (inst & i2 & Hinst & Hread & _).
  - left. reflexivity.
  - intros other [<- | []] _. reflexivity.
  - reflexivity.
  - reflexivity.
  - inversion Hinst; subst inst. cbn [encoding blob] in Hread.
    rewrite Hread. reflexivity.
Defined.

(** ** [create_flow_run], [read_flow_run], [update_flow_run],
    [delete_flow_run] together *)

Lemma bind_returns {S A B} (m : M S A) (k : A -> M S B) s b s2 :
  bind m k s = (Ok b, s2) ->
  exists a s1, m s = (Ok a, s1) /\ k a s1 = (Ok b, s2).
Proof.
  unfold bind. destruct (m s) as [[a | e] s1]; intros H.
  - exists a, s1. split; [reflexivity | exact H].
  - discriminate H.
Qed.

(** A load by identifier sees the identities of the table only. *)
Lemma find_by_id_of_run_identities (flow_run_id : UUID) (s s' : Session) :
  run_identities s' = run_identities s ->
  option_map identity_of (find (has_id flow_run_id) (flow_run_table s'))
  = option_map identity_of (find (has_id flow_run_id) (flow_run_table s)).
Proof.
  unfold run_identities.
  generalize (flow_run_table s') as t'. generalize (flow_run_table s) as t.
  induction t as [| x t IH]; intros [| x' t'] H; try discriminate H.
  - reflexivity.
  - cbn [map] in H.
    assert (Hx : identity_of x' = identity_of x) by congruence.
    assert (Ht : map identity_of t' = map identity_of t) by congruence.
    assert (Hid : has_id flow_run_id x' = has_id flow_run_id x).
    { unfold has_id. unfold identity_of in Hx. congruence. }
    cbn [find]. rewrite Hid. destruct (has_id flow_run_id x).
    + cbn [option_map]. rewrite Hx. reflexivity.
    + exact (IH t' Ht).
Qed.

Lemma finish_create_keeps {C : Collaborators} {X : Type} (P : Session -> X)
  (now : DateTime) (flow_run : FlowRun) (model : FlowRunRow) (st : St Rule) :
  collaborators_keep P C ->
  P (session (snd (finish_create now flow_run model st))) = P (session st).
Proof.
  intros HC. unfold finish_create.
  destruct (sets_initial_state model now flow_run); [| reflexivity].
  pose proof (set_flow_run_state_keeps P HC st (row_id model)
                (fr_state flow_run) true) as Hk.
  unfold bind, ret.
  destruct (set_flow_run_state (row_id model) (fr_state flow_run) true st)
    as [[result | e] st2]; exact Hk.
Qed.

(** A returned [create_flow_run] has put its row in the table, under an
    identifier no other row has. *)
Lemma created_row_is_stored {C : Collaborators} (st st1 : St Rule)
  (flow_run : FlowRun) (model : FlowRunRow) :
  unique_ids (session st) ->
  (if truthy_str (fr_idempotency_key flow_run)
   then insert_then_read_back flow_run st
   else add_and_flush flow_run st) = (Ok model, st1) ->
  find (has_id (row_id model)) (flow_run_table (session st1)) = Some model.
Proof.
  intros Hnd Hrun.
  destruct (truthy_str (fr_idempotency_key flow_run)) eqn:Hkey.
  - exact (proj2 (insert_then_read_back_target st st1 flow_run model
                    Hkey Hnd Hrun)).
  - destruct (add_and_flush_cases st flow_run) as (new & s' & Hd & Hcases).
    rewrite Hrun in Hcases.
    destruct (violates_primary_key new (flow_run_table (session st)))
      eqn:Hpk; [discriminate Hcases |].
    destruct (conflicts_on_unique_keys new (flow_run_table (session st)));
      [discriminate Hcases |].
    inversion Hcases; subst model st1. cbn.
    apply find_by_own_id.
    + exact (insert_keeps_unique_ids _ _ Hpk Hnd).
    + apply in_or_app. right. left. reflexivity.
Qed.

Lemma read_flow_run_returns {Rule : Type} (st : St Rule) (flow_run_id : UUID) :
  read_flow_run flow_run_id st
  = (Ok (find (has_id flow_run_id) (flow_run_table (session st))),
     mkSt (session st) (trace st ++ [SessionGet flow_run_id])).
Proof. destruct st as [s tr]. reflexivity. Qed.

(** X9.  Insert and look-up agree: after [create_flow_run] has returned a
    row, [read_flow_run] on that row's identifier finds a row with the same
    identifier, flow, key and creation timestamp (its state pointer is
    where the engine left it), provided identifiers were unique before and
    the orchestration hooks do not add, delete or re-key runs. *)
Theorem read_after_create (C : Collaborators) (st st' : St Rule)
  (flow_run : FlowRun) (model : FlowRunRow) :
  collaborators_keep run_identities C ->
  unique_ids (session st) ->
  create_flow_run flow_run st = (Ok model, st') ->
  exists row,
    fst (read_flow_run (row_id model) st') = Ok (Some row) /\
    identity_of row = identity_of model.
Proof.
  intros HC Hnd Hcreate.
  assert (Hsplit : exists model1 st1,
            (if truthy_str (fr_idempotency_key flow_run)
             then insert_then_read_back flow_run (after_now st)
             else add_and_flush flow_run (after_now st)) = (Ok model1, st1) /\
            finish_create (now_of st) flow_run model1 st1 = (Ok model, st')).
  { destruct (truthy_str (fr_idempotency_key flow_run)) eqn:Hkey.
    - rewrite (create_flow_run_with_key st flow_run Hkey) in Hcreate.
      exact (bind_returns _ _ _ _ _ Hcreate).
    - rewrite (create_flow_run_without_key st flow_run Hkey) in Hcreate.
      exact (bind_returns _ _ _ _ _ Hcreate). }
  destruct Hsplit as (model1 & st1 & Hins & Hfin).
  assert (Hnd0 : unique_ids (session (after_now st))).
  { destruct st as [s tr]. exact Hnd. }
  pose proof (created_row_is_stored (after_now st) st1 flow_run model1
                Hnd0 Hins) as Hfind.
  pose proof (proj2 (proj2 (finish_create_calls (now_of st) flow_run model1
                              st1)) model st' Hfin) as ->.
  pose proof (finish_create_keeps run_identities (now_of st) flow_run model1
                st1 HC) as Hkeep.
  rewrite Hfin in Hkeep. cbn [snd] in Hkeep.
  pose proof (find_by_id_of_run_identities (row_id model1) _ _ Hkeep) as Hid.
  rewrite Hfind in Hid. rewrite read_flow_run_returns. cbn [fst].
  destruct (find (has_id (row_id model1)) (flow_run_table (session st')))
    as [row |]; [| discriminate Hid].
  exists row. split; [reflexivity |]. cbn in Hid. congruence.
Qed.

Lemma read_after_create_witness :
  collaborators_keep run_identities sample_collaborators /\
  unique_ids (session fresh) /\
  exists row,
    fst (read_flow_run (Rule := SampleRule) 1000%N
           (snd (create_flow_run (C := sample_collaborators)
                   keyed_request fresh))) = Ok (Some row) /\
    row_id row = 1000%N.
Proof.
  split; [exact sample_collaborators_keep_runs |].
  assert (Hnd : unique_ids (session fresh)) by constructor.
  split; [exact Hnd |].
  destruct (read_after_create sample_collaborators fresh
              (snd (create_flow_run (C := sample_collaborators)
                      keyed_request fresh))
              keyed_request
              (mkFlowRunRow 1000%N 101%Z 9%N (Some "k1"%string) None)
              sample_collaborators_keep_runs Hnd eq_refl)
    as (row & Hread & Hid).
  exists row. split; [exact Hread |]. inversion Hid. reflexivity.
Defined.

Lemma run_first_alone {C : Collaborators} (first second : FlowRun) (b : Call)
  (st : St Rule) :
  run_schedule first second [true; true; true; true] NotStarted b st
  = (fst (run_alone first st), b, snd (run_alone first st)).
Proof.
  unfold run_alone. cbn [run_schedule].
  destruct (call_step first NotStarted st) as [c1 st1].
  destruct (call_step first c1 st1) as [c2 st2].
  destruct (call_step first c2 st2) as [c3 st3].
  destruct (call_step first c3 st3) as [c4 st4]. reflexivity.
Qed.

Lemma run_second_alone {C : Collaborators} (first second : FlowRun) (a : Call)
  (st : St Rule) :
  run_schedule first second [false; false; false; false] a NotStarted st
  = (a, fst (run_alone second st), snd (run_alone second st)).
Proof.
  unfold run_alone. cbn [run_schedule].
  destruct (call_step second NotStarted st) as [c1 st1].
  destruct (call_step second c1 st1) as [c2 st2].
  destruct (call_step second c2 st2) as [c3 st3].
  destruct (call_step second c3 st3) as [c4 st4]. reflexivity.
Qed.

(** X10.  Creation is idempotent under a key: when two requests with the
    same flow and the same key are served one after the other, the second
    call returns the row the first returned, and the table holds that one
    row for the pair. *)
Theorem create_twice_returns_same_run (C : Collaborators)
  (st st1 st2 : St Rule) (first second : FlowRun) (m1 m2 : FlowRunRow) :
  collaborators_keep run_identities C ->
  fr_flow_id first = fr_flow_id second ->
  fr_idempotency_key first = fr_idempotency_key second ->
  truthy_str (fr_idempotency_key first) = true ->
  let same :=
    same_unique_keys (fr_flow_id first) (fr_idempotency_key first) in
  List.length (filter same (flow_run_table (session st))) <= 1 ->
  create_flow_run first st = (Ok m1, st1) ->
  create_flow_run second st1 = (Ok m2, st2) ->
  identity_of m2 = identity_of m1 /\
  exists row,
    filter same (flow_run_table (session st2)) = [row] /\
    identity_of row = identity_of m1.
Proof.
  intros HC Hflow Hk Hkey same Hlen H1 H2.
  assert (Hlen' : List.length
                    (pair_identities (fr_flow_id first)
                       (fr_idempotency_key first) (session st)) <= 1).
  { unfold pair_identities. rewrite length_map. exact Hlen. }
  pose proof (run_alone_is_create_flow_run first st) as Ha.
  rewrite H1 in Ha.
  pose proof (run_alone_is_create_flow_run second st1) as Hb.
  rewrite H2 in Hb.
  pose proof (run_first_alone first second NotStarted st) as Hs1.
  rewrite Ha in Hs1. cbn [fst snd] in Hs1.
  destruct (run_schedule_consistent HC (fr_flow_id first)
              (fr_idempotency_key first) Hkey first second
              [true; true; true; true] NotStarted NotStarted _ _ st st1
              eq_refl eq_refl (eq_sym Hflow) (eq_sym Hk) Hlen' I I Hs1)
    as (Hlen1 & Hca & Hcb).
  pose proof (run_second_alone first second
                (Returned (now_of st) m1
                   (sets_initial_state m1 (now_of st) first)) st1) as Hs2.
  rewrite Hb in Hs2. cbn [fst snd] in Hs2.
  destruct (run_schedule_consistent HC (fr_flow_id first)
              (fr_idempotency_key first) Hkey first second
              [false; false; false; false] _ NotStarted _ _ st1 st2
              eq_refl eq_refl (eq_sym Hflow) (eq_sym Hk) Hlen1 Hca I Hs2)
    as (_ & [Ka _] & [Kb _]).
  unfold pair_identities in Ka, Kb. fold same in Ka, Kb.
  destruct (filter same (flow_run_table (session st2))) as [| row rest];
    [discriminate Ka |].
  destruct rest; [| discriminate Ka]. cbn in Ka, Kb.
  split; [congruence |]. exists row. split; [reflexivity | congruence].
Qed.

Lemma create_twice_returns_same_run_witness :
  collaborators_keep run_identities sample_collaborators /\
  truthy_str (fr_idempotency_key keyed_request) = true /\
  let st1 := snd (create_flow_run (C := sample_collaborators)
                    keyed_request fresh) in
  option_map row_id
    (match fst (create_flow_run (C := sample_collaborators)
                  second_keyed_request st1) with
     | Ok m => Some m
     | Raise _ => None
     end) = Some 1000%N.
Proof.
  split; [exact sample_collaborators_keep_runs |].
  split; [reflexivity |]. cbv zeta.
  set (r1 := create_flow_run (C := sample_collaborators) keyed_request fresh).
  set (r2 := create_flow_run (C := sample_collaborators) second_keyed_request
               (snd r1)).
  assert (H1 : r1 = (Ok (mkFlowRunRow 1000%N 101%Z 9%N (Some "k1"%string)
                                      None), snd r1))
    by (vm_compute; reflexivity).
  assert (H2 : r2 = (Ok (mkFlowRunRow 1000%N 101%Z 9%N (Some "k1"%string)
                                      (Some 7%N)), snd r2))
    by (vm_compute; reflexivity).
  assert (Hlen : List.length
            (filter (same_unique_keys (fr_flow_id keyed_request)
                                      (fr_idempotency_key keyed_request))
                    (flow_run_table (session fresh))) <= 1) by (cbn; lia).
  destruct (create_twice_returns_same_run sample_collaborators fresh
              (snd r1) (snd r2) keyed_request second_keyed_request _ _
              sample_collaborators_keep_runs eq_refl eq_refl eq_refl Hlen
              H1 H2) as [Hid _].
  rewrite H2. cbn. inversion Hid. reflexivity.
Defined.

Lemma map_only_matching {A} (p : A -> bool) (f : A -> A) (l : list A) :
  existsb p l = false -> map (fun x => if p x then f x else x) l = l.
Proof.
  induction l as [| x l IH]; simpl; [reflexivity |].
  destruct (p x); [intros H; discriminate H |].
  intros H. rewrite (IH H). reflexivity.
Qed.

Lemma find_map_matching (flow_run_id : UUID) (f : FlowRunRow -> FlowRunRow)
  (t : list FlowRunRow) :
  (forall r, has_id flow_run_id r = true -> has_id flow_run_id (f r) = true) ->
  find (has_id flow_run_id)
       (map (fun r => if has_id flow_run_id r then f r else r) t)
  = option_map f (find (has_id flow_run_id) t).
Proof.
  intros Hf. induction t as [| x t IH]; simpl; [reflexivity |].
  destruct (has_id flow_run_id x) eqn:Hx.
  - rewrite (Hf x Hx). reflexivity.
  - rewrite Hx. exact IH.
Qed.

(** X11.  [update_flow_run] with a well-typed payload returns whether a
    run with the identifier exists; it rewrites the rows with that
    identifier and nothing else: the table keeps its length and order, the
    other rows and the state table are untouched, and when no run has the
    identifier the whole session is as before. *)
Theorem update_flow_run_effect (C : Collaborators) (st : St Rule)
  (flow_run_id : UUID) (payload : FlowRunUpdate) :
  let r := update_flow_run flow_run_id (OfType payload) st in
  let t := flow_run_table (session st) in
  let t' := flow_run_table (session (snd r)) in
  fst r = Ok (existsb (has_id flow_run_id) t) /\
  List.length t' = List.length t /\
  (forall n row, nth_error t n = Some row ->
     nth_error t' n
     = Some (if has_id flow_run_id row then update_values payload row
             else row)) /\
  flow_run_state_table (session (snd r)) = flow_run_state_table (session st) /\
  (existsb (has_id flow_run_id) t = false -> session (snd r) = session st).
Proof.
  destruct st as [s tr]. cbn.
  split; [reflexivity |]. split; [apply length_map |].
  split; [| split; [reflexivity |]].
  - intros n row Hn. rewrite nth_error_map, Hn. reflexivity.
  - intros Hnone. rewrite (map_only_matching _ _ _ Hnone).
    destruct s. reflexivity.
Qed.

(** X12.  Update and look-up agree: when the update does not change the
    identifier of the run it rewrites, a [read_flow_run] after
    [update_flow_run] returns the row that was stored under the identifier
    with the update applied to it. *)
Theorem read_after_update (C : Collaborators) (st : St Rule)
  (flow_run_id : UUID) (payload : FlowRunUpdate) (row : FlowRunRow) :
  (forall r, has_id flow_run_id r = true ->
             has_id flow_run_id (update_values payload r) = true) ->
  find (has_id flow_run_id) (flow_run_table (session st)) = Some row ->
  fst (update_flow_run flow_run_id (OfType payload) st) = Ok true /\
  fst (read_flow_run flow_run_id
         (snd (update_flow_run flow_run_id (OfType payload) st)))
  = Ok (Some (update_values payload row)).
Proof.
  intros Hkeep Hfind. rewrite read_flow_run_returns.
  destruct st as [s tr]. cbn in *.
  rewrite existsb_find, Hfind. split; [reflexivity |].
  rewrite (find_map_matching flow_run_id (update_values payload) _ Hkeep),
    Hfind. reflexivity.
Qed.

Lemma read_after_update_witness :
  find (has_id 1%N) (flow_run_table (session one_run)) = Some sample_run /\
  fst (read_flow_run 1%N
         (snd (update_flow_run (C := sample_collaborators) 1%N (OfType tt)
                 one_run)))
  = Ok (Some sample_run).
Proof.
  split; [reflexivity |].
  exact (proj2 (read_after_update sample_collaborators one_run 1%N tt
                  sample_run (fun r H => H) eq_refl)).
Defined.

Lemma find_filter_out (flow_run_id : UUID) (t : list FlowRunRow) :
  find (has_id flow_run_id)
       (filter (fun r => negb (has_id flow_run_id r)) t) = None.
Proof.
  induction t as [| x t IH]; simpl; [reflexivity |].
  destruct (has_id flow_run_id x) eqn:Hx; cbn; [exact IH |].
  rewrite Hx. exact IH.
Qed.

Lemma filter_nothing_out {A} (p : A -> bool) (l : list A) :
  existsb p l = false -> filter (fun x => negb (p x)) l = l.
Proof.
  induction l as [| x l IH]; simpl; [reflexivity |].
  destruct (p x); [intros H; discriminate H |].
  intros H. cbn. rewrite (IH H). reflexivity.
Qed.

(** X13.  [delete_flow_run] returns whether a run with the identifier
    existed; afterwards no run has the identifier, so [read_flow_run]
    returns nothing and a second delete returns false; every other run is
    kept, in order; and deleting an identifier no run has changes
    nothing. *)
Theorem delete_flow_run_effect (Rule : Type)
  (cascade : UUID -> list FlowRunStateRow -> list FlowRunStateRow)
  (st : St Rule) (flow_run_id : UUID) :
  let r := delete_flow_run cascade flow_run_id st in
  let t := flow_run_table (session st) in
  let t' := flow_run_table (session (snd r)) in
  fst r = Ok (existsb (has_id flow_run_id) t) /\
  fst (read_flow_run flow_run_id (snd r)) = Ok None /\
  fst (delete_flow_run cascade flow_run_id (snd r)) = Ok false /\
  t' = filter (fun row => negb (has_id flow_run_id row)) t /\
  (forall other, other <> flow_run_id ->
     find (has_id other) t' = find (has_id other) t) /\
  (existsb (has_id flow_run_id) t = false -> snd r = st).
Proof.
  cbv zeta. rewrite read_flow_run_returns. destruct st as [s tr]. cbn.
  split; [reflexivity |].
  split; [rewrite find_filter_out; reflexivity |].
  split; [rewrite existsb_find, find_filter_out; reflexivity |].
  split; [reflexivity |]. split.
  - intros other Hother. induction (flow_run_table s) as [| x t IH];
      [reflexivity |].
    cbn. destruct (has_id flow_run_id x) eqn:Hx; cbn.
    + assert (Hox : has_id other x = false).
      { unfold has_id in *. apply N.eqb_eq in Hx. apply N.eqb_neq. congruence. }
      rewrite Hox. exact IH.
    + destruct (has_id other x); [reflexivity | exact IH].
  - intros Hnone. rewrite Hnone, (filter_nothing_out _ _ Hnone).
    destruct s. reflexivity.
Qed.

(** ** Chains that do not complete *)

Section AbortedChain.

Context {C : Collaborators}.

(** A run of entries that raised has attempted one rule more than it has
    stacked exit callbacks for. *)
Lemma entries_raise (cms : list (RuleInstance Rule)) (c c' : Chain Rule)
  (e : PyExc) :
  for_each cms enter_async_context c = (Raise e, c') ->
  exists k, k < List.length cms /\
    chain_trace c' = chain_trace c ++ map (@RuleEnter Rule) (firstn (S k) cms) /\
    chain_stack c' = rev (firstn k cms) ++ chain_stack c.
Proof.
  revert c. induction cms as [| cm cms IH]; intros c H; simpl in H.
  - discriminate H.
  - unfold bind in H.
    pose proof (enter_async_context_frame cm c) as [Ht Hs].
    destruct (enter_async_context cm c) as [[[] | e1] c1]; cbn in Ht, Hs.
    + apply IH in H as (k & Hk & Ht' & Hs'). exists (S k).
      split; [simpl; lia |]. split.
      * rewrite Ht', Ht, <- app_assoc. reflexivity.
      * rewrite Hs', Hs. cbn [firstn rev]. rewrite <- app_assoc. reflexivity.
    + inversion H; subst. exists 0. split; [simpl; lia |].
      split; [exact Ht | exact Hs].
Qed.

Lemma chain_aborted (context : FlowOrchestrationContext)
  (core glob : list Rule) (transition : option StateType * option StateType)
  (st : St Rule) :
  is_ok (fst (entry_phase core glob (fst transition) (snd transition)
                (mkChain context [] st))) = false ->
  let entered := core_instances core transition ++ global_instances glob in
  exists k, k < List.length entered /\
    trace (snd (async_with_exit_stack context
                  (chain_body core glob (fst transition) (snd transition)) st))
    = trace st ++ map (@RuleEnter Rule) (firstn (S k) entered)
               ++ map (@RuleExit Rule) (rev (firstn k entered)).
Proof.
  intros Hraise entered.
  unfold async_with_exit_stack, chain_body. unfold bind at 1.
  destruct (entry_phase core glob (fst transition) (snd transition)
              (mkChain context [] st)) as [[[] | e] c1] eqn:He;
    [discriminate Hraise | clear Hraise].
  rewrite entry_phase_flat in He.
  apply entries_raise in He as (k & Hk & Ht & Hs).
  fold entered in Hk, Ht, Hs. exists k. split; [exact Hk |].
  cbn in Ht, Hs. rewrite app_nil_r in Hs. cbn [raised fst]. rewrite Hs.
  pose proof (unwind_trace (rev (firstn k entered)) (Some e)
                (mkChain (chain_context c1) [] (chain_st c1))) as Hu.
  destruct (unwind (rev (firstn k entered)) (Some e) _) as [pending c3].
  unfold chain_trace in Hu, Ht. cbn in Hu.
  assert (Hgoal : trace (chain_st c3) =
            trace st ++ map (@RuleEnter Rule) (firstn (S k) entered)
                     ++ map (@RuleExit Rule) (rev (firstn k entered))).
  { rewrite Hu, Ht, <- !app_assoc. reflexivity. }
  destruct pending; exact Hgoal.
Qed.

(** Exit callbacks that return false hand the pending exception on as it
    was. *)
Lemma unwind_unsuppressed (callbacks : list (RuleInstance Rule))
  (pending : option PyExc) (c : Chain Rule) :
  (forall cm p x, fst (aexit cm p x) = Ok false) ->
  fst (unwind callbacks pending c) = pending.
Proof.
  intros Hexit. revert c.
  induction callbacks as [| cb rest IH]; intros c; [reflexivity |].
  cbn [unwind]. unfold on_st, emit, modify, bind, run_hook.
  destruct c as [ctx stk [s tr]]. cbn -[unwind].
  specialize (Hexit cb pending (ctx, s)).
  destruct (aexit cb pending (ctx, s)) as [r [ctx' s']].
  cbn in Hexit. subst r. apply IH.
Qed.

End AbortedChain.

(** X14.  When a rule raises on entry, the chain stops there: the rules
    before it were entered in order, the terminal validation does not run,
    the exits of the rules that did enter run in reverse, the rule that
    raised gets no exit, and the flush is issued only if an exit has
    suppressed the exception. *)
Theorem set_flow_run_state_aborted_entry (C : Collaborators) (st : St Rule)
  (flow_run_id : UUID) (state : option State) (force : bool)
  (run : FlowRunRow) :
  find (has_id flow_run_id) (flow_run_table (session st)) = Some run ->
  let initial_state := run_state (session st) run in
  let transition := intended_transition initial_state state in
  let core := fst (compiled_rules force transition) in
  let glob := snd (compiled_rules force transition) in
  let entered := core_instances core transition ++ global_instances glob in
  is_ok (fst (entry_phase core glob (fst transition) (snd transition)
                (mkChain (new_context run initial_state state) []
                         (engine_started st flow_run_id state force)))) = false ->
  let r := set_flow_run_state flow_run_id state force st in
  exists k, k < List.length entered /\
    trace (snd r) =
      trace st
      ++ [EngineCall flow_run_id state force; SessionGet flow_run_id]
      ++ map (@RuleEnter Rule) (firstn (S k) entered)
      ++ map (@RuleExit Rule) (rev (firstn k entered))
      ++ (if is_ok (fst r) then [SessionFlush] else []).
Proof.
  intros Hrun initial_state transition core glob entered Hraise r.
  destruct (chain_aborted (new_context run initial_state state)
              core glob transition
              (engine_started st flow_run_id state force) Hraise)
    as (k & Hk & Ht).
  exists k. split; [exact Hk |].
  unfold r. rewrite (set_flow_run_state_found st flow_run_id state force run Hrun).
  cbv zeta. fold initial_state. fold transition. fold core. fold glob.
  fold entered in Ht. unfold bind.
  destruct (async_with_exit_stack _ _ _) as [[context | e] st2];
    cbn [snd fst is_ok] in Ht |- *; unfold emit, modify, ret;
    cbn [snd fst is_ok trace]; rewrite Ht;
    unfold engine_started; cbn [trace];
    rewrite <- !app_assoc; cbn [app]; rewrite ?app_nil_r; reflexivity.
Qed.

Lemma set_flow_run_state_aborted_entry_witness :
  find (has_id 1%N) (flow_run_table (session completed_run))
  = Some (mkFlowRunRow 1%N 90%Z 9%N None (Some 5%N)) /\
  exists k, k < 2 /\
    trace (snd (set_flow_run_state (C := sample_collaborators)
                  1%N (Some sample_scheduled) false completed_run)) =
    [EngineCall 1%N (Some sample_scheduled) false; SessionGet 1%N]
    ++ map (@RuleEnter SampleRule)
         (firstn (S k) [CoreRule GuardCompleted (Some COMPLETED) (Some SCHEDULED);
                        GlobalRule NoteTransition])
    ++ map (@RuleExit SampleRule)
         (rev (firstn k [CoreRule GuardCompleted (Some COMPLETED) (Some SCHEDULED);
                         GlobalRule NoteTransition]))
    ++ [].
Proof.
  split; [reflexivity |].
  exact (set_flow_run_state_aborted_entry sample_collaborators completed_run
           1%N (Some sample_scheduled) false
           (mkFlowRunRow 1%N 90%Z 9%N None (Some 5%N)) eq_refl eq_refl).
Defined.

(** X15.  An exception raised inside the rule chain, by an entry or by the
    terminal validation, propagates out of [set_flow_run_state] when no exit
    callback suppresses it: the call raises that exception and returns no
    result. *)
Theorem unsuppressed_exception_propagates (C : Collaborators) (st : St Rule)
  (flow_run_id : UUID) (state : option State) (force : bool)
  (run : FlowRunRow) (e : PyExc) :
  (forall cm pending x, fst (aexit cm pending x) = Ok false) ->
  find (has_id flow_run_id) (flow_run_table (session st)) = Some run ->
  let initial_state := run_state (session st) run in
  let transition := intended_transition initial_state state in
  let core := fst (compiled_rules force transition) in
  let glob := snd (compiled_rules force transition) in
  fst (chain_body core glob (fst transition) (snd transition)
         (mkChain (new_context run initial_state state) []
                  (engine_started st flow_run_id state force))) = Raise e ->
  fst (set_flow_run_state flow_run_id state force st) = Raise e.
Proof.
  intros Hexit Hrun initial_state transition core glob Hbody.
  rewrite (set_flow_run_state_found st flow_run_id state force run Hrun).
  cbv zeta. fold initial_state. fold transition. fold core. fold glob.
  unfold bind at 1. unfold async_with_exit_stack.
  destruct (chain_body core glob (fst transition) (snd transition) _)
    as [rb c1].
  cbn in Hbody. subst rb. cbn [raised].
  pose proof (unwind_unsuppressed (chain_stack c1) (Some e)
                (mkChain (chain_context c1) [] (chain_st c1)) Hexit) as Hu.
  destruct (unwind (chain_stack c1) (Some e) _) as [pending c2].
  cbn in Hu. subst pending. reflexivity.
Qed.

Lemma unsuppressed_exception_propagates_witness :
  fst (set_flow_run_state (C := sample_collaborators)
         1%N (Some sample_scheduled) false completed_run)
  = Raise (OtherError "Abort").
Proof.
  refine (unsuppressed_exception_propagates sample_collaborators completed_run
            1%N (Some sample_scheduled) false
            (mkFlowRunRow 1%N 90%Z 9%N None (Some 5%N)) (OtherError "Abort")
            _ eq_refl eq_refl).
  intros cm pending [ctx s]. destruct cm as [[|] ? ? | [|]]; reflexivity.
Defined.

(** X16.  [set_flow_run_state] writes nothing of its own: any quantity of
    the session that the rule hooks and the terminal validation leave as
    it was is, after the call and whatever its outcome, as it was. *)
Theorem set_flow_run_state_frame (C : Collaborators) (X : Type)
  (P : Session -> X) (st : St Rule) (flow_run_id : UUID)
  (state : option State) (force : bool) :
  collaborators_keep P C ->
  P (session (snd (set_flow_run_state flow_run_id state force st)))
  = P (session st).
Proof.
  intros HC. exact (set_flow_run_state_keeps P HC st flow_run_id state force).
Qed.

Lemma set_flow_run_state_frame_witness :
  run_identities
    (session (snd (set_flow_run_state (C := sample_collaborators)
                     1%N (Some sample_scheduled) false one_run)))
  = run_identities (session one_run).
Proof.
  exact (set_flow_run_state_frame sample_collaborators _ run_identities
           one_run 1%N (Some sample_scheduled) false
           sample_collaborators_keep_runs).
Defined.

Lemma unwind_with_validation (C : Collaborators) (v : Hook unit)
  (callbacks : list (RuleInstance (@Rule C))) (pending : option PyExc)
  (c : Chain (@Rule C)) :
  unwind (C := with_validation C v) callbacks pending c
  = unwind (C := C) callbacks pending c.
Proof.
  revert pending c. induction callbacks as [| cb rest IH]; intros pending c;
    [reflexivity |].
  cbn [unwind].
  set (step := (on_st (emit (RuleExit cb)) ;; run_hook (@aexit C cb pending))%py c).
  change ((on_st (emit (RuleExit cb)) ;;
           run_hook (@aexit (with_validation C v) cb pending))%py c)
    with step.
  destruct step as [[[|] | e] c1]; apply IH.
Qed.

(** When an entry raises, the terminal validation is never consulted: the
    chain, and with it the call, is the same whatever stands in its
    place. *)
Lemma aborted_chain_ignores_validation (C : Collaborators) (v : Hook unit)
  (context : FlowOrchestrationContext) (core glob : list (@Rule C))
  (from_type to_type : option StateType) (st : St (@Rule C)) :
  is_ok (fst (entry_phase (C := C) core glob from_type to_type
                (mkChain context [] st))) = false ->
  async_with_exit_stack (C := C) context
    (chain_body (C := C) core glob from_type to_type) st
  = async_with_exit_stack (C := with_validation C v) context
      (chain_body (C := with_validation C v) core glob from_type to_type) st.
Proof.
  intros Hraise. unfold async_with_exit_stack, chain_body, bind.
  set (entered := entry_phase (C := C) core glob from_type to_type
                    (mkChain context [] st)) in *.
  change (@entry_phase (with_validation C v) core glob from_type to_type
            (@mkChain (@Rule (with_validation C v)) context [] st))
    with entered.
  destruct entered as [[[] | e] c1]; [discriminate Hraise |].
  cbn [raised fst].
  change (@chain_stack (@Rule (with_validation C v)) c1)
    with (@chain_stack (@Rule C) c1).
  rewrite (unwind_with_validation C v (chain_stack c1) (Some e)).
  reflexivity.
Qed.

Lemma aborted_entry_ignores_validation (C : Collaborators) (v : Hook unit)
  (st : St (@Rule C)) (flow_run_id : UUID) (state : option State)
  (force : bool) (run : FlowRunRow) :
  find (has_id flow_run_id) (flow_run_table (session st)) = Some run ->
  let initial_state := run_state (session st) run in
  let transition := intended_transition initial_state state in
  is_ok (fst (entry_phase (C := C)
                (fst (compiled_rules force transition))
                (snd (compiled_rules force transition))
                (fst transition) (snd transition)
                (mkChain (new_context run initial_state state) []
                         (engine_started st flow_run_id state force)))) = false ->
  set_flow_run_state (C := C) flow_run_id state force st
  = set_flow_run_state (C := with_validation C v) flow_run_id state force st.
Proof.
  intros Hrun initial_state transition Hraise.
  subst initial_state transition.
  rewrite (set_flow_run_state_found (C := C) st flow_run_id state force run
             Hrun).
  rewrite (set_flow_run_state_found (C := with_validation C v) st flow_run_id
             state force run Hrun).
  cbv zeta. unfold bind.
  rewrite (aborted_chain_ignores_validation C v _ _ _ _ _ _ Hraise).
  reflexivity.
Qed.

(** X17.  A transition that a rule aborts on entry changes nothing that the
    rule hooks themselves leave alone, whatever the terminal validation
    would have written. *)
Theorem aborted_entry_keeps (C : Collaborators) (X : Type) (P : Session -> X)
  (st : St Rule) (flow_run_id : UUID) (state : option State) (force : bool)
  (run : FlowRunRow) :
  (forall cm, keeps P (aenter cm)) ->
  (forall cm pending, keeps P (aexit cm pending)) ->
  find (has_id flow_run_id) (flow_run_table (session st)) = Some run ->
  let initial_state := run_state (session st) run in
  let transition := intended_transition initial_state state in
  is_ok (fst (entry_phase
                (fst (compiled_rules force transition))
                (snd (compiled_rules force transition))
                (fst transition) (snd transition)
                (mkChain (new_context run initial_state state) []
                         (engine_started st flow_run_id state force)))) = false ->
  P (session (snd (set_flow_run_state flow_run_id state force st)))
  = P (session st).
Proof.
  intros Henter Hexit Hrun initial_state transition Hraise.
  rewrite (aborted_entry_ignores_validation C (fun x => (Ok tt, x)) st
             flow_run_id state force run Hrun Hraise).
  apply (set_flow_run_state_keeps
           (C := with_validation C (fun x => (Ok tt, x))) P).
  split; [exact Henter |]. split; [exact Hexit |].
  intros ctx s. reflexivity.
Qed.

Lemma aborted_entry_keeps_witness :
  session (snd (set_flow_run_state (C := sample_collaborators)
                  1%N (Some sample_scheduled) false completed_run))
  = session completed_run.
Proof.
  refine (aborted_entry_keeps sample_collaborators Session (fun s => s)
            completed_run 1%N (Some sample_scheduled) false
            (mkFlowRunRow 1%N 90%Z 9%N None (Some 5%N)) _ _ eq_refl eq_refl).
  - intros cm ctx s. destruct cm as [[|] [[]|] ? | [|]]; reflexivity.
  - intros cm pending ctx s. destruct cm as [[|] ? ? | [|]]; reflexivity.
Defined.

(** ** [RunGreatExpectationsValidation.run] *)

Import GE.

Section CheckpointFacts.

Variables W DataContext Checkpoint Asset Results Rendered Value : Type.
Variable L : Library W DataContext Checkpoint Asset Results Rendered Value.

Local Abbreviation Args := (RunArgs DataContext Checkpoint Asset Value).
Local Abbreviation Envt :=
  (Env W DataContext Checkpoint Asset Results Rendered Value).
Local Abbreviation Sig := (Signal Results).

(** A call into a library is on record whatever it does, and what it
    raises is the library's. *)
Lemma call_cases {A} (c : LibCall DataContext Checkpoint Asset Results
                            Rendered Value)
  (op : Op W A) (env : Envt) :
  ge_calls (snd (call c op env)) = ge_calls env ++ [c] /\
  (forall e : Sig, fst (call c op env) = inr e ->
                   exists what, e = LibraryError what).
Proof.
  unfold call. destruct (op (ge_world env)) as [[x | what] w']; cbn.
  - split; [reflexivity |]. intros e H. discriminate H.
  - split; [reflexivity |]. intros e H. inversion H. exists what. reflexivity.
Qed.

Lemma prepare_cases (a : Args) (env : Envt) :
  let r := prepare L a env in
  (exists n, ge_calls (snd r) = ge_calls env ++ firstn n (preparation L a)) /\
  match fst r with
  | inl _ => ge_calls (snd r) = ge_calls env ++ preparation L a
  | inr e => exists what, e = LibraryError what
  end.
Proof.
  unfold prepare, preparation, and_then, call, done, truthy_with.
  destruct (version_below_0_13_8 L).
  - destruct (logger_warn L (ge_world env)) as [[[] | what] w1]; cbn.
    + destruct (context a) as [c |]; [destruct (context_truthy L c) |]; cbn.
      * split; [exists 1 |]; reflexivity.
      * destruct (data_context L _ _ w1) as [[ctx | what] w2]; cbn;
          rewrite <- app_assoc.
        -- split; [exists 2 |]; reflexivity.
        -- split; [exists 2; reflexivity | exists what; reflexivity].
      * destruct (data_context L _ _ w1) as [[ctx | what] w2]; cbn;
          rewrite <- app_assoc.
        -- split; [exists 2 |]; reflexivity.
        -- split; [exists 2; reflexivity | exists what; reflexivity].
    + split; [exists 1; destruct (context a) as [c |];
                [destruct (context_truthy L c) |]; reflexivity
             | exists what; reflexivity].
  - cbn. destruct (context a) as [c |]; [destruct (context_truthy L c) |]; cbn.
    + split; [exists 0 |]; rewrite app_nil_r; reflexivity.
    + destruct (data_context L _ _ (ge_world env)) as [[ctx | what] w2]; cbn.
      * split; [exists 1 |]; reflexivity.
      * split; [exists 1; reflexivity | exists what; reflexivity].
    + destruct (data_context L _ _ (ge_world env)) as [[ctx | what] w2]; cbn.
      * split; [exists 1 |]; reflexivity.
      * split; [exists 1; reflexivity | exists what; reflexivity].
Qed.

Local Ltac selected_call :=
  cbn; repeat split; try reflexivity; try assumption;
  intros; try congruence; try discriminate.

Local Abbreviation validate_post a l o :=
  (filter is_artifact_call l = [] /\
   match o with
   | inl _ => exists v, filter is_validation l = [v] /\ selected L a v
   | inr (TypeError_multiple_values keyword) =>
       checkpoint_route L a = true /\
       repeated_keyword (or_dict (checkpoint_kwargs a)) = Some keyword /\
       filter is_validation l = []
   | inr (LibraryError _) =>
       filter is_validation l = [] \/
       exists v, filter is_validation l = [v] /\ selected L a v
   | inr _ => False
   end).

Lemma resolve_checkpoint_cases (a : Args) (ctx : DataContext) (env : Envt) :
  let r := resolve_checkpoint L a ctx env in
  exists l, ge_calls (snd r) = ge_calls env ++ l /\
    filter is_artifact_call l = [] /\ filter is_validation l = [] /\
    match fst r with
    | inl cp => forall c, ge_checkpoint a = Some c ->
                          checkpoint_truthy L c = true -> cp = c
    | inr e => exists what, e = LibraryError what
    end.
Proof.
  assert (Hget : (forall c, ge_checkpoint a = Some c ->
                            checkpoint_truthy L c = false) ->
    let r := call (GetCheckpoint ctx (checkpoint_name a))
                  (get_checkpoint L ctx (checkpoint_name a)) env in
    exists l, ge_calls (snd r) = ge_calls env ++ l /\
      filter is_artifact_call l = [] /\ filter is_validation l = [] /\
      match fst r with
      | inl cp => forall c, ge_checkpoint a = Some c ->
                            checkpoint_truthy L c = true -> cp = c
      | inr e => exists what, e = @LibraryError Results what
      end).
  { intros Hfalsy. unfold call.
    destruct (get_checkpoint L ctx (checkpoint_name a) (ge_world env))
      as [[cp | what] w1]; cbn;
      exists [GetCheckpoint ctx (checkpoint_name a)];
      (split; [reflexivity |]); (split; [reflexivity |]);
      (split; [reflexivity |]).
    - intros c Hc Ht. rewrite (Hfalsy c Hc) in Ht. discriminate Ht.
    - exists what. reflexivity. }
  unfold resolve_checkpoint.
  destruct (ge_checkpoint a) as [c |] eqn:Hcp;
    [destruct (checkpoint_truthy L c) eqn:Ht |].
  - cbn. exists []. rewrite app_nil_r. repeat split. intros c0 Hc0 _.
    congruence.
  - apply Hget. intros c0 Hc0. congruence.
  - apply Hget. intros c0 Hc0. discriminate Hc0.
Qed.

Lemma resolve_assets_cases (a : Args) (ctx : DataContext) (env : Envt) :
  let r := resolve_assets L a ctx env in
  exists l, ge_calls (snd r) = ge_calls env ++ l /\
    filter is_artifact_call l = [] /\ filter is_validation l = [] /\
    match fst r with
    | inl assets => truthy_list (assets_to_validate a) = true ->
                    assets_to_validate a = Some assets
    | inr e => exists what, e = LibraryError what
    end.
Proof.
  assert (Hget : truthy_list (assets_to_validate a) = false ->
    let r := and_then
               (call (GetBatch ctx (batch_kwargs a) (expectation_suite_name a))
                     (get_batch L ctx (batch_kwargs a)
                        (expectation_suite_name a)))
               (fun batch => done [batch]) env in
    exists l, ge_calls (snd r) = ge_calls env ++ l /\
      filter is_artifact_call l = [] /\ filter is_validation l = [] /\
      match fst r with
      | inl assets => truthy_list (assets_to_validate a) = true ->
                      assets_to_validate a = Some assets
      | inr e => exists what, e = @LibraryError Results what
      end).
  { intros Hfalsy. unfold and_then, call, done.
    destruct (get_batch L ctx (batch_kwargs a) (expectation_suite_name a)
                (ge_world env)) as [[batch | what] w1]; cbn;
      exists [GetBatch ctx (batch_kwargs a) (expectation_suite_name a)];
      (split; [reflexivity |]); (split; [reflexivity |]);
      (split; [reflexivity |]).
    - intros Ht. rewrite Hfalsy in Ht. discriminate Ht.
    - exists what. reflexivity. }
  unfold resolve_assets.
  destruct (assets_to_validate a) as [[| x l0] |] eqn:Hassets.
  - apply Hget. reflexivity.
  - cbn. exists []. rewrite app_nil_r. repeat split.
  - apply Hget. reflexivity.
Qed.

Lemma validate_cases (a : Args) (ctx : DataContext) (env : Envt) :
  let r := validate L a ctx env in
  exists l, ge_calls (snd r) = ge_calls env ++ l /\ validate_post a l (fst r).
Proof.
  unfold validate. destruct (checkpoint_route L a) eqn:Hroute.
  - unfold and_then.
    destruct (resolve_checkpoint_cases a ctx env) as (l1 & Hl & Ha & Hv & Hcp).
    destruct (resolve_checkpoint L a ctx env) as [[cp | e] env1]; cbn in *.
    + unfold run_checkpoint.
      destruct (repeated_keyword (or_dict (checkpoint_kwargs a)))
        as [keyword |] eqn:Hk; cbn.
      * exists l1. repeat split; assumption.
      * unfold call.
        destruct (checkpoint_run L cp _ _ _ (ge_world env1))
          as [[res | what] w1]; cbn;
          exists (l1 ++ [CheckpointRun cp (evaluation_parameters a)
                           (or_task_slug L (run_name a))
                           (or_dict (checkpoint_kwargs a))]);
          rewrite Hl, <- app_assoc, !filter_app, Ha, Hv; cbn;
          (split; [reflexivity |]); (split; [reflexivity |]).
        -- eexists. split; [reflexivity |]. selected_call.
        -- right. eexists. split; [reflexivity |]. selected_call.
    + destruct Hcp as [what ->]. exists l1.
      split; [exact Hl |]. split; [exact Ha |]. left. exact Hv.
  - unfold and_then.
    destruct (resolve_assets_cases a ctx env) as (l1 & Hl & Ha & Hv & Hassets).
    destruct (resolve_assets L a ctx env) as [[assets | e] env1]; cbn in *.
    + unfold run_operator, call.
      destruct (run_validation_operator L ctx _ assets _ _ (ge_world env1))
        as [[res | what] w1]; cbn;
        exists (l1 ++ [RunValidationOperator ctx (validation_operator a)
                         assets (or_task_slug L (run_name a))
                         (evaluation_parameters a)]);
        rewrite Hl, <- app_assoc, !filter_app, Ha, Hv; cbn;
        (split; [reflexivity |]); (split; [reflexivity |]).
      * eexists. split; [reflexivity |]. selected_call.
      * right. eexists. split; [reflexivity |]. selected_call.
    + destruct Hassets as [what ->]. exists l1.
      split; [exact Hl |]. split; [exact Ha |]. left. exact Hv.
Qed.

Lemma post_artifact_cases (a : Args) (results : Results) (env : Envt) :
  let r := post_artifact L a results env in
  exists l, ge_calls (snd r) = ge_calls env ++ l /\
    filter is_validation l = [] /\
    (if disable_markdown_artifact a then l = [] /\ fst r = inl tt
     else match fst r with
          | inl _ =>
              exists rendered pages,
                l = [RenderValidationOperatorResult (run_info_at_end a) results;
                     MarkdownPageViewRender rendered;
                     CreateMarkdownArtifact (String.concat " " pages)]
          | inr e => exists what, e = LibraryError what
          end).
Proof.
  unfold post_artifact. destruct (disable_markdown_artifact a).
  - cbn. exists []. rewrite app_nil_r. repeat split.
  - unfold and_then, call.
    destruct (render_validation_operator_result L _ results (ge_world env))
      as [[rendered | what] w1]; cbn.
    + destruct (markdown_page_view_render L rendered w1)
        as [[pages | what] w2]; cbn.
      * destruct (create_markdown_artifact L _ w2) as [[[] | what] w3]; cbn;
          rewrite <- !app_assoc; cbn; eexists;
          (split; [reflexivity |]); (split; [reflexivity |]).
        -- exists rendered, pages. reflexivity.
        -- exists what. reflexivity.
      * rewrite <- !app_assoc. cbn. eexists.
        split; [reflexivity |]. split; [reflexivity |].
        exists what. reflexivity.
    + eexists. split; [reflexivity |]. split; [reflexivity |].
      exists what. reflexivity.
Qed.

Lemma preparation_calls (a : Args) (n : nat) :
  filter is_validation (firstn n (preparation L a)) = [] /\
  filter is_artifact_call (firstn n (preparation L a)) = [].
Proof.
  unfold preparation.
  destruct (version_below_0_13_8 L);
    destruct (truthy_with (context_truthy L) (context a));
    destruct n as [| [| [| n]]]; split; reflexivity.
Qed.

Lemma preparation_all_calls (a : Args) :
  filter is_validation (preparation L a) = [] /\
  filter is_artifact_call (preparation L a) = [].
Proof.
  rewrite <- (firstn_all (preparation L a)). apply preparation_calls.
Qed.

(** What a run that got as far as its verdict has done. *)
Local Abbreviation completed a l res :=
  (exactly_one (alternatives L a) = true /\
   exists lv la,
     l = preparation L a ++ lv ++ la /\
     filter is_artifact_call lv = [] /\
     (exists v, filter is_validation lv = [v] /\ selected L a v) /\
     (if disable_markdown_artifact a then la = []
      else exists rendered pages,
          la = [RenderValidationOperatorResult (run_info_at_end a) res;
                MarkdownPageViewRender rendered;
                CreateMarkdownArtifact (String.concat " " pages)])).

(** Every way a run can end, with the calls it has made by then. *)
Lemma run_cases (a : Args) (env : Envt) :
  let r := run L a env in
  exists l, ge_calls (snd r) = ge_calls env ++ l /\
    match fst r with
    | inl res => success L res <> Some false /\ completed a l res
    | inr (FAIL res) => success L res = Some false /\ completed a l res
    | inr ValueError_exactly_one_required =>
        exactly_one (alternatives L a) = false /\ l = preparation L a
    | inr (TypeError_multiple_values keyword) =>
        exactly_one (alternatives L a) = true /\
        checkpoint_route L a = true /\
        repeated_keyword (or_dict (checkpoint_kwargs a)) = Some keyword /\
        filter is_validation l = [] /\ filter is_artifact_call l = []
    | inr (LibraryError _) =>
        (filter is_validation l = [] \/
         exists v, filter is_validation l = [v] /\ selected L a v) /\
        (disable_markdown_artifact a = true -> filter is_artifact_call l = [])
    end.
Proof.
  unfold run, and_then, check, conclude, throw, done.
  destruct (prepare_cases a env) as [[n Hn] Hp].
  destruct (preparation_calls a n) as [Hnv Hna].
  destruct (preparation_all_calls a) as [Hpv Hpa].
  destruct (prepare L a env) as [[ctx | e] env0]; cbn [fst snd] in *.
  2: { destruct Hp as [what ->]. exists (firstn n (preparation L a)).
       split; [exact Hn |]. split; [left; exact Hnv | intros _; exact Hna]. }
  destruct (exactly_one (alternatives L a)) eqn:Hone; cbn [fst snd].
  2: { exists (preparation L a). split; [exact Hp |]. split; reflexivity. }
  destruct (validate_cases a ctx env0) as (lv & Hlv & Hav & Hpost).
  destruct (validate L a ctx env0) as [[res | e] env1]; cbn [fst snd] in *.
  2: { exists (preparation L a ++ lv).
       split; [rewrite Hlv, Hp, app_assoc; reflexivity |].
       rewrite !filter_app, Hpv, Hpa, Hav. cbn.
       destruct e as [| res | keyword | what]; try contradiction.
       - destruct Hpost as (Hroute & Hk & Hv).
         repeat split; try assumption; reflexivity.
       - split; [exact Hpost | intros _; reflexivity]. }
  destruct (post_artifact_cases a res env1) as (la & Hla & Hvla & Hdis).
  assert (Hlog : forall env2 : Envt,
            ge_calls env2 = ge_calls env1 ++ la ->
            ge_calls env2 = ge_calls env ++ preparation L a ++ lv ++ la).
  { intros env2 H. rewrite H, Hlv, Hp, <- !app_assoc. reflexivity. }
  destruct (post_artifact L a res env1) as [[[] | e] env2]; cbn [fst snd] in *.
  - assert (Hdone : completed a (preparation L a ++ lv ++ la) res).
    { split; [exact Hone |]. exists lv, la.
      split; [reflexivity |]. split; [exact Hav |]. split; [exact Hpost |].
      destruct (disable_markdown_artifact a); [exact (proj1 Hdis) | exact Hdis]. }
    rewrite Hone in Hdone.
    exists (preparation L a ++ lv ++ la).
    destruct (success L res) as [[|] |] eqn:Hs; cbn [fst snd];
      (split; [exact (Hlog env2 Hla) |]); (split; [| exact Hdone]);
      congruence.
  - exists (preparation L a ++ lv ++ la). split; [exact (Hlog env2 Hla) |].
    destruct (disable_markdown_artifact a).
    + destruct Hdis as [_ Hd]. discriminate Hd.
    + destruct Hdis as [what ->]. rewrite !filter_app, Hpv, Hvla. cbn.
      rewrite app_nil_r. split; [right; exact Hpost |].
      intros Hd. discriminate Hd.
Qed.

(** X18.  Unless exactly one of the four alternatives (suite with batch
    kwargs, assets, checkpoint name, checkpoint) is given, [run] returns no
    result and never fails the task: it raises its [ValueError], or an
    error of the logger or the [DataContext] constructor comes first.  By
    the time the [ValueError] is raised the version warning has been
    logged and a missing context has been loaded; nothing else has been
    called. *)
Theorem run_requires_exactly_one_alternative (a : Args) (env : Envt) :
  exactly_one (alternatives L a) = false ->
  let r := run L a env in
  (fst r = inr ValueError_exactly_one_required \/
   exists what, fst r = inr (LibraryError what)) /\
  (exists n, ge_calls (snd r) = ge_calls env ++ firstn n (preparation L a)) /\
  (fst r = inr ValueError_exactly_one_required ->
   ge_calls (snd r) = ge_calls env ++ preparation L a).
Proof.
  intros Hone. unfold run, and_then, check, throw. rewrite Hone.
  destruct (prepare_cases a env) as [[n Hn] Hp].
  destruct (prepare L a env) as [[ctx | e] env0]; cbn [fst snd] in *.
  - split; [left; reflexivity |]. split; [exists n; exact Hn |].
    intros _. exact Hp.
  - destruct Hp as [what ->]. split; [right; exists what; reflexivity |].
    split; [exists n; exact Hn |]. intros H. discriminate H.
Qed.

(** X19.  The verdict of [run]: a result it returns does not have
    [success] equal to [False], a result it fails the task with does, and
    in both cases exactly one alternative was given. *)
Theorem run_verdict (a : Args) (env : Envt) :
  match fst (run L a env) with
  | inl res =>
      success L res <> Some false /\ exactly_one (alternatives L a) = true
  | inr (FAIL res) =>
      success L res = Some false /\ exactly_one (alternatives L a) = true
  | inr _ => True
  end.
Proof.
  destruct (run_cases a env) as (l & _ & H).
  destruct (fst (run L a env)) as [res | [| res | keyword | what]];
    try exact I; destruct H as (Hs & Hone & _); split; assumption.
Qed.



(** X22.  Checkpoint keyword arguments that name [evaluation_parameters]
    or [run_id] repeat a keyword of the call in lines 267-271: on the
    checkpoint route the call raises [TypeError] for the first such key
    (unless a library call before it has raised), the checkpoint is not
    run, and nothing is rendered or posted. *)
Theorem repeated_keyword_stops_checkpoint (a : Args) (env : Envt)
  (keyword : string) :
  exactly_one (alternatives L a) = true ->
  checkpoint_route L a = true ->
  repeated_keyword (or_dict (checkpoint_kwargs a)) = Some keyword ->
  let r := run L a env in
  (fst r = inr (TypeError_multiple_values keyword) \/
   exists what, fst r = inr (LibraryError what)) /\
  exists l, ge_calls (snd r) = ge_calls env ++ l /\
    filter is_validation l = [] /\ filter is_artifact_call l = [].
Proof.
  intros Hone Hroute Hk.
  unfold run, and_then, check, done. rewrite Hone.
  destruct (prepare_cases a env) as [[n Hn] Hp].
  destruct (preparation_calls a n) as [Hnv Hna].
  destruct (preparation_all_calls a) as [Hpv Hpa].
  destruct (prepare L a env) as [[ctx | e] env0]; cbn [fst snd] in *.
  2: { destruct Hp as [what ->]. split; [right; exists what; reflexivity |].
       exists (firstn n (preparation L a)). repeat split; assumption. }
  unfold validate, and_then. rewrite Hroute.
  destruct (resolve_checkpoint_cases a ctx env0) as (l1 & Hl & Ha & Hv & Hcp).
  assert (Hlog : forall env1 : Envt,
            ge_calls env1 = ge_calls env0 ++ l1 ->
            exists l, ge_calls env1 = ge_calls env ++ l /\
              filter is_validation l = [] /\ filter is_artifact_call l = []).
  { intros env1 H. exists (preparation L a ++ l1).
    rewrite H, Hp, <- app_assoc, !filter_app, Hpv, Hpa, Hv, Ha.
    repeat split. }
  destruct (resolve_checkpoint L a ctx env0) as [[cp | e] env1];
    cbn [fst snd] in *.
  - unfold run_checkpoint, throw. rewrite Hk. cbn [fst snd].
    split; [left; reflexivity | exact (Hlog env1 Hl)].
  - destruct Hcp as [what ->]. split; [right; exists what; reflexivity |].
    exact (Hlog env1 Hl).
Qed.

End CheckpointFacts.

Lemma run_requires_exactly_one_alternative_witness :
  exactly_one (alternatives sample_library no_args) = false /\
  (fst (run sample_library no_args start)
   = inr ValueError_exactly_one_required \/
   exists what,
     fst (run sample_library no_args start) = inr (LibraryError what)) /\
  (exists n,
     ge_calls (snd (run sample_library no_args start))
     = ge_calls start ++ firstn n (preparation sample_library no_args)) /\
  (fst (run sample_library no_args start)
   = inr ValueError_exactly_one_required ->
   ge_calls (snd (run sample_library no_args start))
   = ge_calls start ++ preparation sample_library no_args).
Proof.
  split; [reflexivity |].
  exact (run_requires_exactly_one_alternative _ _ _ _ _ _ _
           sample_library no_args start eq_refl).
Defined.

Lemma repeated_keyword_stops_checkpoint_witness :
  repeated_keyword (or_dict (checkpoint_kwargs repeating_run_id))
  = Some "run_id"%string /\
  (fst (run sample_library repeating_run_id start)
   = inr (TypeError_multiple_values "run_id"%string) \/
   exists what,
     fst (run sample_library repeating_run_id start)
     = inr (LibraryError what)) /\
  exists l,
    ge_calls (snd (run sample_library repeating_run_id start))
    = ge_calls start ++ l /\
    filter is_validation l = [] /\ filter is_artifact_call l = [].
Proof.
  split; [reflexivity |].
  exact (repeated_keyword_stops_checkpoint _ _ _ _ _ _ _
           sample_library repeating_run_id start "run_id"%string
           eq_refl eq_refl eq_refl).
Defined.
